(** * SafeHaven-AI fundraising dashboard: the data-derivation functions of app.py

    A shallow embedding of the five data functions of [src/app.py]
    ([generate_synthetic_donors], [get_live_donations_data],
    [get_donor_segments], [get_churn_risk_donors], [get_donation_nudges])
    together with the parts of NumPy and pandas they call.

    - Python exceptions are an [outcome]; the interpreter state (the heap of
      pandas frames, NumPy's global random state, the clock) is a [World]
      threaded through a state-and-exception monad [M].  An exception keeps
      the world, as in Python.
    - A pandas DataFrame over the donor columns is a list of [Row]s living in
      the heap and named by a reference, so that [df[col] = ...] is an
      in-place update visible through every alias, while boolean indexing,
      [sort_values], [head], [sample] and [copy] allocate a new frame.
    - int64 columns are [Z] (wrap-around written out where the code adds),
      dates are day ordinals, timestamps are hours.
    - A float64 value is a rational, an infinity or NaN.  The product and
      the rounding of line 61 are float64 operations: their result is the
      float64 nearest to the exact one ([np_float64]).  The quotient of
      line 20 and the scores of line 54 are kept exact; the statements on
      them are on their sign and range.
    - NumPy's global generator is a tape of raw draws with a cursor.
    - The statement of lines 26-31 does not compile (line 29); the text of
      these lines is part of the model, and [get_live_donations_data] is the
      function as written. *)

From Stdlib Require Import ZArith QArith Qround Qabs Qpower Ascii String List Lia Lqa.
From Stdlib Require Import DecimalString DecimalPos DecimalN.
From stdpp Require Import base list strings sorting.
Import ListNotations.
Close Scope Q_scope.
Local Open Scope Z_scope.

(** ** Python: exceptions and outcomes *)

Inductive exn : Type :=
| SyntaxError
| ValueError
| IndexError
| KeyError.

Inductive outcome (A : Type) : Type :=
| Return (a : A)
| Raise (e : exn).
Arguments Return {A} a.
Arguments Raise {A} e.

Definition raised {A} (o : outcome A) : bool :=
  match o with Return _ => false | Raise _ => true end.

(** ** float64 and int64 values *)

Inductive float64 : Type :=
| Fin (q : Q)
| Inf (negative : bool)
| NaN.

(** [int / int] on int64 columns: true division, never an exception.  The
    quotient is kept exact; the code holds the float64 nearest to it, which
    is what [as_float64] below reads from the column. *)
Definition true_divide (a b : Z) : float64 :=
  if b =? 0 then
    (if a =? 0 then NaN else Inf (a <? 0))
  else Fin (inject_Z a / inject_Z b)%Q.

(** Rounding to the nearest integer, ties to the even neighbour
    (C's [rint], used by [ndarray.round] and [Series.round]). *)
Definition rint (q : Q) : Z :=
  let f := Qfloor q in
  let r := (q - inject_Z f)%Q in
  match (r ?= 1 # 2)%Q with
  | Lt => f
  | Gt => f + 1
  | Eq => if Z.even f then f else f + 1
  end.

(** 2^e, for any integer [e]. *)
Definition pow2 (e : Z) : Q := (2 ^ e)%Q.

(** floor (log2 a), for a rational [a > 0]. *)
Definition Qlog2 (a : Q) : Z :=
  let k := Z.log2 (Qnum a) - Z.log2 (Z.pos (Qden a)) in
  if Qle_bool (pow2 k) a then k else k - 1.

(** The result of a float64 operation whose exact value is [q]: IEEE 754
    binary64, rounding to nearest with ties to the even significand.  Around
    [q] the float64 numbers are the multiples of 2^e, with 53 significant
    bits above the least exponent -1074; a result of magnitude 2^1024 or
    more is an infinity.  (The sign of a zero is not kept.) *)
Definition np_float64 (q : Q) : float64 :=
  if Qeq_bool q 0 then Fin 0
  else
    let e := Z.max (Qlog2 (Qabs q) - 52) (-1074) in
    let m := rint (q / pow2 e) in
    if Qle_bool (pow2 1024) (inject_Z (Z.abs m) * pow2 e) then Inf (Qnum q <? 0)
    else Fin (Qred (inject_Z m * pow2 e)).

(** The value a float64 column holds for a value of the model: the float64
    nearest to it (itself, when it is one). *)
Definition as_float64 (x : float64) : float64 :=
  match x with
  | Fin q => np_float64 q
  | other => other
  end.

(** [x * c] on a float64 column, for a float64 constant [c]: the float64
    nearest to the exact product. *)
Definition fmul (x : float64) (c : Q) : float64 :=
  match as_float64 x with
  | Fin q => np_float64 (q * c)
  | Inf s => if Qeq_bool c 0 then NaN
             else Inf (if Qle_bool 0 c then s else negb s)
  | NaN => NaN
  end.

(** [x.round(decimals)] on the scores of line 54: scale, [rint], scale
    back.  The scores are kept as exact decimals; the code holds the float64
    nearest to each. *)
Definition np_round (decimals : nat) (q : Q) : Q :=
  let s := inject_Z (10 ^ Z.of_nat decimals) in
  (inject_Z (rint (q * s)) / s)%Q.

(** [Series.round(decimals)] on a float64 column.  With [decimals = 0] NumPy
    applies [rint] alone, whose result on a float64 is a float64; with more
    decimals it multiplies by 10^decimals, applies [rint] and divides, each
    a float64 operation. *)
Definition fround (decimals : nat) (x : float64) : float64 :=
  match as_float64 x with
  | Fin q =>
      match decimals with
      | O => Fin (inject_Z (rint q))
      | S _ =>
          let s := inject_Z (10 ^ Z.of_nat decimals) in
          match np_float64 (q * s) with
          | Fin y => np_float64 (inject_Z (rint y) / s)
          | other => other
          end
      end
  | other => other
  end.

Definition INT64_MIN : Z := - 2 ^ 63.
Definition INT64_MAX : Z := 2 ^ 63 - 1.

Definition wrap64 (z : Z) : Z := (z + 2 ^ 63) mod 2 ^ 64 - 2 ^ 63.

Definition int64_add (a b : Z) : Z := wrap64 (a + b).

(** [ndarray.astype(int)] on a float64: truncation toward zero; a value
    outside the int64 range converts to INT64_MIN (the x86-64 result). *)
Definition astype_int (x : Q) : Z :=
  let t := Z.quot (Qnum x) (Z.pos (Qden x)) in
  if (INT64_MIN <=? t) && (t <=? INT64_MAX) then t else INT64_MIN.

(** ** The donor table *)

(** One row of a frame over the donor columns.  [None] is pandas' missing
    value in an object or integer column, [NaN] in a float column.  The last
    five columns are the ones the derived views attach. *)
Record Row : Type := mkRow {
  index : nat;
  donor_id : option Z;
  name : option string;
  join_date : option Z;
  total_donations : option Z;
  total_amount : option Z;
  avg_donation : float64;
  segment : option string;
  churn_risk_score : option Q;
  suggested_action : option string;
  suggested_ask : float64;
  suggested_channel : option string
}.

(** A frame is the list of its rows. *)
Abbreviation Frame := (list Row) (only parsing).

(** A row in which every column is missing (what reindexing fills in). *)
Definition nan_row (i : nat) : Row :=
  mkRow i None None None None None NaN None None None NaN None.

Definition set_avg_donation (v : float64) (r : Row) : Row :=
  mkRow (index r) (donor_id r) (name r) (join_date r) (total_donations r)
        (total_amount r) v (segment r) (churn_risk_score r)
        (suggested_action r) (suggested_ask r) (suggested_channel r).

Definition set_segment (v : string) (r : Row) : Row :=
  mkRow (index r) (donor_id r) (name r) (join_date r) (total_donations r)
        (total_amount r) (avg_donation r) (Some v) (churn_risk_score r)
        (suggested_action r) (suggested_ask r) (suggested_channel r).

Definition set_churn_risk_score (v : Q) (r : Row) : Row :=
  mkRow (index r) (donor_id r) (name r) (join_date r) (total_donations r)
        (total_amount r) (avg_donation r) (segment r) (Some v)
        (suggested_action r) (suggested_ask r) (suggested_channel r).

Definition set_suggested_action (v : string) (r : Row) : Row :=
  mkRow (index r) (donor_id r) (name r) (join_date r) (total_donations r)
        (total_amount r) (avg_donation r) (segment r) (churn_risk_score r)
        (Some v) (suggested_ask r) (suggested_channel r).

Definition set_suggested_ask (v : float64) (r : Row) : Row :=
  mkRow (index r) (donor_id r) (name r) (join_date r) (total_donations r)
        (total_amount r) (avg_donation r) (segment r) (churn_risk_score r)
        (suggested_action r) v (suggested_channel r).

Definition set_suggested_channel (v : string) (r : Row) : Row :=
  mkRow (index r) (donor_id r) (name r) (join_date r) (total_donations r)
        (total_amount r) (avg_donation r) (segment r) (churn_risk_score r)
        (suggested_action r) (suggested_ask r) (Some v).

(** ** The interpreter state and its monad *)

(** A reference is a position in the heap. *)
Abbreviation ref := nat (only parsing).

Record World : Type := mkWorld {
  heap : list Frame;      (* pandas frames, by reference *)
  tape : nat -> Q;        (* raw draws of np.random's global state *)
  cursor : nat;           (* how many draws were consumed *)
  today : Z               (* datetime.now().date(), as a day ordinal;
                             the date does not change during a run *)
}.

Definition M (A : Type) : Type := World -> outcome A * World.

Definition ret {A} (a : A) : M A := fun w => (Return a, w).

Definition raise {A} (e : exn) : M A := fun w => (Raise e, w).

Definition bind {A B} (m : M A) (k : A -> M B) : M B :=
  fun w =>
    match m w with
    | (Return a, w') => k a w'
    | (Raise e, w') => (Raise e, w')
    end.

Notation "x <- m ;; k" := (bind m (fun x => k))
  (at level 100, m at next level, right associativity).
Notation "'exec' m ;; k" := (bind m (fun _ => k))
  (at level 100, m at next level, right associativity).

(** A list comprehension [[body for x in xs]], evaluated left to right. *)
Fixpoint for_each {A B} (xs : list A) (body : A -> M B) : M (list B) :=
  match xs with
  | [] => ret []
  | x :: xs' => y <- body x ;; ys <- for_each xs' body ;; ret (y :: ys)
  end.

(** [range(lo, hi)]. *)
Definition range (lo hi : Z) : list Z :=
  map (fun i => lo + Z.of_nat i) (seq 0 (Z.to_nat (hi - lo))).

(** [str(i)] for a non-negative integer. *)
Definition str (i : Z) : string :=
  NilZero.string_of_uint (N.to_uint (Z.to_N i)).

Definition datetime_now_date : M Z := fun w => (Return (today w), w).

(** *** The heap *)

(** The world with one more frame, at the end of the heap. *)
Definition with_new_frame (f : Frame) (w : World) : World :=
  mkWorld (heap w ++ [f]) (tape w) (cursor w) (today w).

(** The world with the frame at [r] replaced. *)
Definition with_frame (r : ref) (f : Frame) (w : World) : World :=
  mkWorld (<[r := f]> (heap w)) (tape w) (cursor w) (today w).

Definition alloc (f : Frame) : M ref :=
  fun w => (Return (length (heap w)), with_new_frame f w).

(** Reading a reference.  A reference that [alloc] returned is always
    found; the error case is there for totality. *)
Definition deref (r : ref) : M Frame :=
  fun w => match heap w !! r with
           | Some f => (Return f, w)
           | None => (Raise KeyError, w)
           end.

Definition store (r : ref) (f : Frame) : M unit :=
  fun w => (Return tt, with_frame r f w).

(** ** numpy.random (the legacy global generator) *)

(** The world after [n] more draws. *)
Definition advance (n : nat) (w : World) : World :=
  mkWorld (heap w) (tape w) (cursor w + n) (today w).

(** One raw draw. *)
Definition random_raw : M Q :=
  fun w => (Return (tape w (cursor w)), advance 1 w).

(** [n] consecutive raw draws (a vectorised call with [size=n]). *)
Definition random_raw_n (n : nat) : M (list Q) :=
  for_each (seq 0 n) (fun _ => random_raw).

(** A raw draw mapped onto the integers of [[lo, hi)]. *)
Definition bounded (lo hi : Z) (q : Q) : Z := lo + Qfloor q mod (hi - lo).

(** A raw draw mapped onto [[0, 1)] ([random_sample]). *)
Definition unit_interval (q : Q) : Q := (q - inject_Z (Qfloor q))%Q.

(** [np.random.randint(lo, hi)]. *)
Definition np_random_randint (lo hi : Z) : M Z :=
  if hi <=? lo then raise ValueError
  else q <- random_raw ;; ret (bounded lo hi q).

(** [np.random.randint(lo, hi, size)]; a negative size is
    "negative dimensions are not allowed". *)
Definition np_random_randint_n (lo hi size : Z) : M (list Z) :=
  if hi <=? lo then raise ValueError
  else if size <? 0 then raise ValueError
  else qs <- random_raw_n (Z.to_nat size) ;; ret (map (bounded lo hi) qs).

(** [np.random.lognormal(mean, sigma, size)].  The sample exp(mean + sigma*z)
    is not a rational function of the raw draw: the tape cell is read as the
    sample itself, and the theorems that need it assume the support of the
    distribution on the cells. *)
Definition np_random_lognormal (mean sigma : Q) (size : Z) : M (list Q) :=
  if Qle_bool 0 sigma then
    if size <? 0 then raise ValueError
    else random_raw_n (Z.to_nat size)
  else raise ValueError.

(** [np.random.uniform(lo, hi, size)]: lo + (hi - lo) * random_sample(). *)
Definition np_random_uniform (lo hi : Q) (size : Z) : M (list Q) :=
  if size <? 0 then raise ValueError
  else qs <- random_raw_n (Z.to_nat size) ;;
       ret (map (fun q => lo + (hi - lo) * unit_interval q)%Q qs).

(** [np.random.choice(a, size)]: with replacement, uniform; the indices are
    [randint(0, len(a), size)]. *)
Definition np_random_choice {A} (a : list A) (size : Z) : M (list A) :=
  match a with
  | [] => if size =? 0 then ret [] else raise ValueError
  | d :: _ =>
      idx <- np_random_randint_n 0 (Z.of_nat (length a)) size ;;
      ret (map (fun i => nth (Z.to_nat i) a d) idx)
  end.

(** The tolerance of [choice] on the sum of [p]: sqrt(eps) = 2^-26. *)
Definition choice_atol : Q := 1 # (2 ^ 26).

Definition sum_Q (p : list Q) : Q := fold_right Qplus 0%Q p.

Fixpoint cumsum (acc : Q) (p : list Q) : list Q :=
  match p with
  | [] => []
  | x :: p' => (acc + x)%Q :: cumsum (acc + x)%Q p'
  end.

(** [cdf.searchsorted(u, side='right')]: how many entries are <= u. *)
Definition searchsorted_right (cdf : list Q) (u : Q) : nat :=
  length (List.filter (fun c => Qle_bool c u) cdf).

(** The checks [choice] makes on [p]. *)
Definition valid_p (pop_size : nat) (p : list Q) : bool :=
  (length p =? pop_size)%nat
  && forallb (fun x => Qle_bool 0 x) p
  && Qle_bool (Qabs (sum_Q p - 1)) choice_atol.

(** [np.random.choice(a, size, p=p)]. *)
Definition np_random_choice_p {A} (a : list A) (size : Z) (p : list Q)
  : M (list A) :=
  match a with
  | [] => if size =? 0 then ret [] else raise ValueError
  | d :: _ =>
      if valid_p (length a) p then
        if size <? 0 then raise ValueError
        else
          qs <- random_raw_n (Z.to_nat size) ;;
          let total := sum_Q p in
          let cdf := map (fun c => c / total)%Q (cumsum 0%Q p) in
          ret (map (fun q => nth (searchsorted_right cdf (unit_interval q)) a d) qs)
      else raise ValueError
  end.

(** Exchange the entries at positions [i] and [j]. *)
Definition swap (x : list nat) (i j : nat) : list nat :=
  match x !! i, x !! j with
  | Some a, Some b => <[i := b]> (<[j := a]> x)
  | _, _ => x
  end.

(** [shuffle]: Fisher-Yates from the last position down to 1, position [i]
    exchanged with a uniform position of [[0, i]]. *)
Fixpoint shuffle (i : nat) (x : list nat) : M (list nat) :=
  match i with
  | O => ret x
  | S i' =>
      q <- random_raw ;;
      shuffle i' (swap x (S i') (Z.to_nat (bounded 0 (Z.of_nat (S i') + 1) q)))
  end.

(** [np.random.permutation(n)]. *)
Definition np_random_permutation (n : nat) : M (list nat) :=
  shuffle (n - 1) (seq 0 n).

(** ** pandas *)

(** [pd.DataFrame({...})] over the five generated donor columns: the columns
    must have one length; the index is the default RangeIndex. *)
Definition pd_DataFrame (ids : list Z) (names : list string)
    (dates tds tas : list Z) : M ref :=
  let n := length ids in
  if (length names =? n)%nat && (length dates =? n)%nat
     && (length tds =? n)%nat && (length tas =? n)%nat
  then alloc (map (fun i => mkRow i (ids !! i) (names !! i) (dates !! i)
                                  (tds !! i) (tas !! i) NaN None None None NaN None)
                  (seq 0 n))
  else raise ValueError.

(** [df[col]] read as a column. *)
Definition df_getitem {V} (df : ref) (col : Row -> V) : M (list V) :=
  f <- deref df ;; ret (map col f).

(** [df[col] = values] for an array or an index-aligned Series: in place.
    A frame with an empty index takes its index from a non-empty value and
    fills the other columns with missing values; otherwise the lengths must
    match. *)
Definition df_setitem {V} (set : V -> Row -> Row) (df : ref) (values : list V)
  : M unit :=
  f <- deref df ;;
  match f, values with
  | [], _ :: _ => store df (imap (fun i v => set v (nan_row i)) values)
  | _, _ =>
      if (length values =? length f)%nat
      then store df (zip_with set values f)
      else raise ValueError
  end.

(** [df[col] = scalar]: broadcast, in place. *)
Definition df_setitem_scalar {V} (set : V -> Row -> Row) (df : ref) (v : V)
  : M unit :=
  f <- deref df ;; store df (map (set v) f).

(** [df[mask]] for a boolean column [mask]: a new frame with the rows at the
    positions where the mask holds. *)
Definition df_filter (df : ref) (mask : list bool) : M ref :=
  f <- deref df ;;
  if (length mask =? length f)%nat
  then alloc (map snd (List.filter fst (zip mask f)))
  else raise ValueError.

(** Ascending order on a nullable integer key, missing values last. *)
Definition key_le (a b : option Z) : bool :=
  match a, b with
  | Some x, Some y => x <=? y
  | Some _, None => true
  | None, Some _ => false
  | None, None => true
  end.

Fixpoint insert_sorted {A} (le : A -> A -> bool) (x : A) (l : list A) : list A :=
  match l with
  | [] => [x]
  | y :: l' => if le x y then x :: l else y :: insert_sorted le x l'
  end.

Definition sort_by {A} (le : A -> A -> bool) (l : list A) : list A :=
  fold_right (insert_sorted le) [] l.

(** [df.sort_values(key)]: a new frame, in ascending order of the key.
    pandas sorts with NumPy's quicksort, which is not stable: which of
    several rows with equal keys comes first depends on NumPy's
    implementation.  The model lists rows with equal keys in table order;
    no statement below depends on the order of rows with equal keys. *)
Definition df_sort_values (df : ref) (key : Row -> option Z) : M ref :=
  f <- deref df ;; alloc (sort_by (fun a b => key_le (key a) (key b)) f).

(** [df.head(n)] is [df.iloc[:n]]: a negative [n] drops the last [-n] rows. *)
Definition df_head (df : ref) (n : Z) : M ref :=
  f <- deref df ;;
  alloc (if 0 <=? n then take (Z.to_nat n) f
         else take (length f - Z.to_nat (- n)) f).

(** [df.copy()]. *)
Definition df_copy (df : ref) : M ref :=
  f <- deref df ;; alloc f.

(** [df.sample(n)]: without replacement; the rows at the first [n] positions
    of a random permutation. *)
Definition df_sample (df : ref) (n : Z) : M ref :=
  f <- deref df ;;
  if n <? 0 then raise ValueError
  else if Z.of_nat (length f) <? n then raise ValueError
  else
    perm <- np_random_permutation (length f) ;;
    match mapM (fun i => f !! i) (take (Z.to_nat n) perm) with
    | Some rows => alloc rows
    | None => raise IndexError
    end.

(** [pd.date_range(start, periods=n, freq='h')], in hours. *)
Definition pd_date_range (start periods : Z) : M (list Z) :=
  if periods <? 0 then raise ValueError
  else ret (map (fun i => 24 * start + i) (range 0 periods)).

(** [pd.unique]: the distinct values in order of first appearance. *)
Definition unique (l : list string) : list string :=
  reverse (remove_dups (reverse l)).

(** [Series.value_counts()]: one entry per distinct non-missing value with
    its number of occurrences, most frequent first; values with the same
    number of occurrences stay in order of first appearance. *)
Definition count_of (l : string) (labels : list string) : nat :=
  length (List.filter (fun x => bool_decide (x = l)) labels).

Definition value_counts (col : list (option string)) : list (string * nat) :=
  let labels := omap id col in
  sort_by (fun a b => (snd b <=? snd a)%nat)
          (map (fun l => (l, count_of l labels)) (unique labels)).

(** [np.select(condlist, choicelist, default)]: per position, the choice of
    the first condition that holds there. *)
Fixpoint np_select (condlist : list (list bool)) (choicelist : list string)
    (default : list string) : list string :=
  match condlist, choicelist with
  | c :: cs, ch :: chs =>
      zip_with (fun (b : bool) rest => if b then ch else rest)
               c (np_select cs chs default)
  | _, _ => default
  end.

(** Comparisons of a nullable value with a scalar; a missing value
    compares false.  The column versions are element-wise. *)
Definition gt_opt (v : option Z) (c : Z) : bool :=
  match v with Some x => c <? x | None => false end.

Definition lt_opt (v : option Z) (c : Z) : bool :=
  match v with Some x => x <? c | None => false end.

Definition eq_opt (v : option Z) (c : Z) : bool :=
  match v with Some x => x =? c | None => false end.

Definition col_gt (col : list (option Z)) (c : Z) : list bool :=
  map (fun v => gt_opt v c) col.

Definition col_lt (col : list (option Z)) (c : Z) : list bool :=
  map (fun v => lt_opt v c) col.

Definition col_eq (col : list (option Z)) (c : Z) : list bool :=
  map (fun v => eq_opt v c) col.

Definition col_and (a b : list bool) : list bool := zip_with andb a b.

(** Element-wise [/] of two nullable integer columns. *)
Definition col_div (a b : list (option Z)) : list float64 :=
  zip_with (fun x y => match x, y with
                       | Some u, Some v => true_divide u v
                       | _, _ => NaN
                       end) a b.

(** *** The derived tables *)

Record ChurnRow : Type := mkChurnRow {
  cr_index : nat;
  cr_name : option string;
  cr_join_date : option Z;
  cr_total_donations : option Z;
  cr_churn_risk_score : option Q;
  cr_suggested_action : option string
}.

Record NudgeRow : Type := mkNudgeRow {
  nr_index : nat;
  nr_name : option string;
  nr_avg_donation : float64;
  nr_suggested_ask : float64;
  nr_suggested_channel : option string
}.

Record DonationEvent : Type := mkDonationEvent {
  ev_timestamp : Z;
  ev_amount : Z;
  ev_campaign : string;
  ev_donor_id : option Z;
  ev_name : option string
}.

(** [pd.DataFrame({...})] over the four event columns. *)
Definition pd_DataFrame_events (timestamps amounts : list Z)
    (campaigns : list string) (donor_ids : list (option Z))
  : M (list DonationEvent) :=
  let n := length timestamps in
  if (length amounts =? n)%nat && (length campaigns =? n)%nat
     && (length donor_ids =? n)%nat
  then ret (zip_with (fun '(t, a) '(c, d) => mkDonationEvent t a c d None)
                     (zip timestamps amounts) (zip campaigns donor_ids))
  else raise ValueError.

(** [left.merge(right[['donor_id', 'name']], on='donor_id', how='left')]:
    the left rows in order, each once per right row with the same key
    (missing keys match each other), or once with a missing name. *)
Definition merge_left (left : list DonationEvent) (right : Frame)
  : list DonationEvent :=
  flat_map
    (fun e =>
       match List.filter (fun r => bool_decide (donor_id r = ev_donor_id e)) right with
       | [] => [e]
       | ms => map (fun r => mkDonationEvent (ev_timestamp e) (ev_amount e)
                               (ev_campaign e) (ev_donor_id e) (name r)) ms
       end)
    left.

(** ** The text of lines 26-31

    The dict literal of [get_live_donations_data], as it is in the source,
    and the bracket matching Python's tokenizer performs on it: an opening
    bracket is pushed, a closing bracket must match the innermost open one,
    string literals and comments are skipped, and an open bracket continues
    the statement on the next line. *)

Definition line26 : string := "    data = {".
Definition line27 : string :=
  "        'timestamp': pd.to_datetime(pd.date_range(datetime.now().date(), periods=num_donations, freq='h')),".
Definition line28 : string :=
  "        'amount': np.random.lognormal(3, 1, num_donations).astype(int) + 5, # More realistic donation amounts".
Definition line29 : string :=
  "        'campaign': np.random.choice(['Summer Appeal', 'Holiday Drive', 'Emergency Fund'], num_donations, p=0.5, 0.3, 0.2]),".
Definition line30 : string := "        'donor_id': donor_ids".
Definition line31 : string := "    }".

(** Line 29 with the opening bracket of the weight list: not the source,
    but what the line means to say. *)
Definition line29_meant : string :=
  "        'campaign': np.random.choice(['Summer Appeal', 'Holiday Drive', 'Emergency Fund'], num_donations, p=[0.5, 0.3, 0.2]),".

Definition is_open (c : ascii) : bool :=
  bool_decide (c = "("%char) || bool_decide (c = "["%char)
  || bool_decide (c = "{"%char).

Definition is_close (c : ascii) : bool :=
  bool_decide (c = ")"%char) || bool_decide (c = "]"%char)
  || bool_decide (c = "}"%char).

Definition closes (opening closing : ascii) : bool :=
  (bool_decide (opening = "("%char) && bool_decide (closing = ")"%char))
  || (bool_decide (opening = "["%char) && bool_decide (closing = "]"%char))
  || (bool_decide (opening = "{"%char) && bool_decide (closing = "}"%char)).

(** One line, from the stack of open brackets before it to the stack after
    it.  [quoted] is true inside a ['...'] literal. *)
Fixpoint scan_line (stack : list ascii) (quoted : bool) (s : string)
  : outcome (list ascii) :=
  match s with
  | EmptyString => Return stack
  | String c rest =>
      if quoted then scan_line stack (negb (bool_decide (c = "'"%char))) rest
      else if bool_decide (c = "'"%char) then scan_line stack true rest
      else if bool_decide (c = "#"%char) then Return stack
      else if is_open c then scan_line (c :: stack) false rest
      else if is_close c then
        match stack with
        | [] => Raise SyntaxError
        | top :: stack' =>
            if closes top c then scan_line stack' false rest
            else Raise SyntaxError
        end
      else scan_line stack false rest
  end.

(** A statement spread over lines: every bracket closed at its end. *)
Fixpoint scan_lines (stack : list ascii) (lines : list string) : outcome unit :=
  match lines with
  | [] => match stack with [] => Return tt | _ :: _ => Raise SyntaxError end
  | l :: lines' =>
      match scan_line stack false l with
      | Return stack' => scan_lines stack' lines'
      | Raise e => Raise e
      end
  end.

(** Python compiles the text of a function before it runs any of it: a
    statement that does not scan ends the call in the SyntaxError, with the
    interpreter state untouched. *)
Definition compile_statement (lines : list string) : M unit :=
  fun w => (scan_lines [] lines, w).

(** ** app.py *)

Definition CHAMPIONS : string := "💜 Champions".
Definition EMERGING : string := "Emerging Supporters".
Definition ONE_TIME : string := "One-Time Givers".
Definition AT_RISK : string := "At-Risk Donors".

Definition CAMPAIGNS : list string :=
  ["Summer Appeal"; "Holiday Drive"; "Emergency Fund"].

Definition CHANNELS : list string := ["Email"; "Targeted Ad"; "SMS"].

(** The weights line 29 means to pass as [p]. *)
Definition campaign_weights : list Q := [0.5; 0.3; 0.2]%Q.

(** Lines 10-21. *)
Definition generate_synthetic_donors (n_donors : Z) : M ref :=
  let ids := range 1001 (1001 + n_donors) in
  let names := map (fun i => "Donor_" +:+ str i) (range 0 n_donors) in
  dates <- for_each (range 0 n_donors)
             (fun _ => now <- datetime_now_date ;;
                       days <- np_random_randint 30 730 ;;
                       ret (now - days)) ;;
  tds <- np_random_randint_n 1 50 n_donors ;;
  amounts <- np_random_lognormal 4 1.5 n_donors ;;
  donors_df <- pd_DataFrame ids names dates tds (map astype_int amounts) ;;
  ta <- df_getitem donors_df total_amount ;;
  td <- df_getitem donors_df total_donations ;;
  exec df_setitem set_avg_donation donors_df (col_div ta td) ;;
  ret donors_df.

(** Lines 23-32 with line 29 read as [p=[0.5, 0.3, 0.2]] ([line29_meant]):
    what the body would compute if the weight list had its opening bracket.
    This is not the function of the source, which is
    [get_live_donations_data] below. *)
Definition get_live_donations_data_meant (donors_df : ref) (num_donations : Z)
  : M (list DonationEvent) :=
  ids <- df_getitem donors_df donor_id ;;
  donor_ids <- np_random_choice ids num_donations ;;
  now <- datetime_now_date ;;
  timestamps <- pd_date_range now num_donations ;;
  draws <- np_random_lognormal 3 1 num_donations ;;
  let amounts := map (fun x => int64_add (astype_int x) 5) draws in
  campaigns <- np_random_choice_p CAMPAIGNS num_donations campaign_weights ;;
  events <- pd_DataFrame_events timestamps amounts campaigns donor_ids ;;
  right <- deref donors_df ;;       (* donors_df[['donor_id', 'name']] *)
  ret (merge_left events right).

(** Lines 23-32, as the source has them.  Line 29 reads
    [p=0.5, 0.3, 0.2])]: the text of the statement of lines 26-31 is
    compiled first, and only a statement that scans is run. *)
Definition get_live_donations_data (donors_df : ref) (num_donations : Z)
  : M (list DonationEvent) :=
  exec compile_statement [line26; line27; line28; line29; line30; line31] ;;
  get_live_donations_data_meant donors_df num_donations.

(** Lines 34-47. *)
Definition get_donor_segments (donors_df : ref) : M (list (string * nat)) :=
  ta <- df_getitem donors_df total_amount ;;
  td <- df_getitem donors_df total_donations ;;
  jd <- df_getitem donors_df join_date ;;
  now <- datetime_now_date ;;
  let conditions :=
    [ col_and (col_gt ta 150) (col_gt td 10);
      col_and (col_gt ta 50) (col_gt jd (now - 90));
      col_eq td 1 ] in
  let choices := [CHAMPIONS; EMERGING; ONE_TIME] in
  exec df_setitem set_segment donors_df
       (np_select conditions choices (replicate (length ta) AT_RISK)) ;;
  seg <- df_getitem donors_df segment ;;
  ret (value_counts seg).

Definition churn_columns (r : Row) : ChurnRow :=
  mkChurnRow (index r) (name r) (join_date r) (total_donations r)
             (churn_risk_score r) (suggested_action r).

(** Lines 49-56.  Line 52 is one expression: filter, sort, head. *)
Definition get_churn_risk_donors (donors_df : ref) (num_at_risk : Z)
  : M (list ChurnRow) :=
  at_risk_candidates <-
    (jd <- df_getitem donors_df join_date ;;
     now <- datetime_now_date ;;
     filtered <- df_filter donors_df (col_lt jd (now - 180)) ;;
     sorted <- df_sort_values filtered total_donations ;;
     df_head sorted num_at_risk) ;;
  at_risk_candidates <- df_copy at_risk_candidates ;;
  scores <- np_random_uniform 0.7 0.95 num_at_risk ;;
  exec df_setitem set_churn_risk_score at_risk_candidates
       (map (np_round 2) scores) ;;
  exec df_setitem_scalar set_suggested_action at_risk_candidates
       "Personal Call"%string ;;
  f <- deref at_risk_candidates ;;
  ret (map churn_columns f).

Definition nudge_columns (r : Row) : NudgeRow :=
  mkNudgeRow (index r) (name r) (avg_donation r) (suggested_ask r)
             (suggested_channel r).

(** Lines 58-63. *)
Definition get_donation_nudges (donors_df : ref) (num_nudges : Z)
  : M (list NudgeRow) :=
  sampled <- df_sample donors_df num_nudges ;;
  nudge_candidates <- df_copy sampled ;;
  avg <- df_getitem nudge_candidates avg_donation ;;
  exec df_setitem set_suggested_ask nudge_candidates
       (map (fun a => fround 0 (fmul a 1.25)) avg) ;;
  channels <- np_random_choice CHANNELS num_nudges ;;
  exec df_setitem set_suggested_channel nudge_candidates channels ;;
  f <- deref nudge_candidates ;;
  ret (map nudge_columns f).

(** ** Auxiliary notions for the statements *)

(** The next [n] cells of the tape. *)
Definition cells (w : World) (n : nat) : list Q :=
  map (fun i => tape w (cursor w + i)%nat) (seq 0 n).

(** The support of the log-normal samples, inside the range in which the
    conversion to int64 is exact: every cell of the tape is non-negative and
    at most 2^63 - 1024, the largest float64 below 2^63. *)
Definition lognormal_support (w : World) : Prop :=
  forall i, (0 <= tape w i)%Q /\ (tape w i <= inject_Z (2 ^ 63 - 1024))%Q.

(** The float64 numbers: m * 2^e with a significand below 2^53 and an
    exponent between -1074 and 971. *)
Definition binary64 (x : Q) : Prop :=
  exists m e : Z,
    Z.abs m < 2 ^ 53 /\ -1074 <= e <= 971 /\ (x == inject_Z m * pow2 e)%Q.

(** [x] is the float64 nearest to [q]: no float64 is nearer, and if another
    one is as near, [x] is the one of the two with the even significand,
    that is an even multiple of their distance. *)
Definition nearest_float64 (q x : Q) : Prop :=
  binary64 x /\
  forall y, binary64 y ->
    (Qabs (x - q) <= Qabs (y - q))%Q /\
    ((Qabs (y - q) == Qabs (x - q))%Q -> ~ (y == x)%Q ->
     exists k : Z, (x == inject_Z (2 * k) * (y - x))%Q).

(** [z] is the integer nearest to [q], the even one of the two when [q] is
    half way between them. *)
Definition nearest_integer (q : Q) (z : Z) : Prop :=
  (Qabs (inject_Z z - q) <= 1 # 2)%Q /\
  ((Qabs (inject_Z z - q) == 1 # 2)%Q -> Z.even z = true).

(** [ask] is round(avg * 1.25) in float64 arithmetic: for a finite [avg]
    (of magnitude at most 2^1022, so that the product does not overflow),
    with [x] the float64 the column holds for it, [p] the float64 nearest to
    the exact product [x * 1.25] and [z] the integer nearest to [p], ties to
    even, [ask] is [z]; an infinite or missing [avg] gives itself. *)
Definition rounded_ask (avg ask : float64) : Prop :=
  match avg with
  | Fin a =>
      (Qabs a <= pow2 1022)%Q ->
      exists (x p : Q) (z : Z),
        nearest_float64 a x /\ nearest_float64 (x * 1.25) p /\
        nearest_integer p z /\ ask = Fin (inject_Z z)
  | other => ask = other
  end.

(** The columns a donor is generated with. *)
Definition base_columns (r : Row)
  : nat * option Z * option string * option Z * option Z * option Z * float64 :=
  (index r, donor_id r, name r, join_date r, total_donations r,
   total_amount r, avg_donation r).

(** The frame [generate_synthetic_donors] builds from the next [3 * n]
    cells of the tape. *)
Definition generated_row (w : World) (n i : nat) : Row :=
  let td := bounded 1 50 (tape w (cursor w + n + i)%nat) in
  let ta := astype_int (tape w (cursor w + (n + n) + i)%nat) in
  mkRow i (Some (1001 + Z.of_nat i))
        (Some ("Donor_" +:+ str (Z.of_nat i)))
        (Some (today w - bounded 30 730 (tape w (cursor w + i)%nat)))
        (Some td) (Some ta) (true_divide ta td) None None None NaN None.

(** The label [get_donor_segments] gives one row, read row by row. *)
Definition row_label (now : Z) (r : Row) : string :=
  if gt_opt (total_amount r) 150 && gt_opt (total_donations r) 10 then CHAMPIONS
  else if gt_opt (total_amount r) 50 && gt_opt (join_date r) (now - 90) then EMERGING
  else if eq_opt (total_donations r) 1 then ONE_TIME
  else AT_RISK.

(** The donor table after [get_donor_segments]. *)
Definition labelled (now : Z) (f : Frame) : Frame :=
  map (fun r => set_segment (row_label now r) r) f.

(** The filter of [get_churn_risk_donors], read row by row. *)
Definition qualifies (now : Z) (r : Row) : bool :=
  lt_opt (join_date r) (now - 180).

(** The list [shuffle i x] returns, as a function of the tape. *)
Fixpoint shuffled (i : nat) (x : list nat) (t : nat -> Q) (c : nat) : list nat :=
  match i with
  | O => x
  | S i' =>
      shuffled i' (swap x (S i') (Z.to_nat (bounded 0 (Z.of_nat (S i') + 1) (t c))))
               t (S c)
  end.

(** The event table [get_live_donations_data_meant] builds before the merge, from
    the next [3 * n] cells of the tape. *)
Definition drawn_events (w : World) (ids : list (option Z)) (d : option Z)
    (n : nat) : list DonationEvent :=
  let cdf := map (fun c => c / sum_Q campaign_weights)%Q
                 (cumsum 0%Q campaign_weights) in
  map (fun i =>
         mkDonationEvent
           (24 * today w + Z.of_nat i)
           (int64_add (astype_int (tape w (cursor w + n + i)%nat)) 5)
           (nth (searchsorted_right cdf
                   (unit_interval (tape w (cursor w + (n + n) + i)%nat)))
                CAMPAIGNS "Summer Appeal"%string)
           (nth (Z.to_nat (bounded 0 (Z.of_nat (length ids))
                                   (tape w (cursor w + i)%nat))) ids d)
           None)
      (seq 0 n).

(** A computation [keeps] the frames of [h0] when, started in a heap that
    extends [h0], it ends (returning or raising) in a heap that still
    extends [h0]: it only allocates, and only updates frames it allocated.
    [Q] is what is known of a returned value. *)
Definition keeps {A} (h0 : list Frame) (m : M A) (Q : A -> Prop) : Prop :=
  forall w, h0 `prefix_of` heap w ->
    h0 `prefix_of` heap (snd (m w)) /\
    match fst (m w) with Return a => Q a | Raise _ => True end.

(** A reference allocated after [h0]. *)
Definition private (h0 : list Frame) (r : ref) : Prop := (length h0 <= r)%nat.

(** ** Concrete worlds for the examples *)

(** A tape whose cells stay inside the log-normal support. *)
Definition demo_tape (i : nat) : Q :=
  (Z.of_nat ((7 * i + 3) mod 2000) # 2)%Q.

(** An empty heap, on day 20000. *)
Definition demo_world : World := mkWorld [] demo_tape 0 20000.

(** A table with one donor who gave 200 in 11 donations. *)
Definition champion_row : Row :=
  mkRow 0 (Some 1001) (Some "Donor_0"%string) (Some 19500) (Some 11) (Some 200)
        (Fin (200 # 11)) None None None NaN None.

Definition champion_world : World := mkWorld [[champion_row]] demo_tape 0 20000.


(** A table with one donor, who joined 200 days before day 20000. *)
Definition lapsed_row : Row :=
  mkRow 0 (Some 1001) (Some "Donor_0"%string) (Some 19800) (Some 3) (Some 40)
        (Fin (40 # 3)) None None None NaN None.

Definition lapsed_world : World := mkWorld [[lapsed_row]] demo_tape 0 20000.

(** A table with one donor, who joined 10 days before day 20000. *)
Definition recent_row : Row :=
  mkRow 0 (Some 1001) (Some "Donor_0"%string) (Some 19990) (Some 3) (Some 40)
        (Fin (40 # 3)) None None None NaN None.

Definition recent_world : World := mkWorld [[recent_row]] demo_tape 0 20000.

(** ** Closed forms of the derived views *)

(** The rows [get_churn_risk_donors] selects on line 52. *)
Definition churn_top (now : Z) (f : Frame) (n : Z) : Frame :=
  let sorted :=
    sort_by (fun a b => key_le (total_donations a) (total_donations b))
            (List.filter (qualifies now) f) in
  if 0 <=? n then take (Z.to_nat n) sorted
  else take (length sorted - Z.to_nat (- n)) sorted.

(** The scores line 54 draws. *)
Definition churn_scores (w : World) (n : Z) : list Q :=
  map (np_round 2)
      (map (fun q => 0.7 + (0.95 - 0.7) * unit_interval q)%Q
           (cells w (Z.to_nat n))).

(** What [get_churn_risk_donors] returns or raises, from the selected rows
    and the scores. *)
Definition churn_outcome (top : Frame) (scores : list Q) (n : Z)
  : outcome (list ChurnRow) :=
  if n <? 0 then Raise ValueError
  else
    match top, scores with
    | [], _ :: _ =>
        Return (map churn_columns
                  (map (set_suggested_action "Personal Call"%string)
                       (imap (fun i v => set_churn_risk_score v (nan_row i)) scores)))
    | _, _ =>
        if (length scores =? length top)%nat
        then Return (map churn_columns
                       (map (set_suggested_action "Personal Call"%string)
                            (zip_with set_churn_risk_score scores top)))
        else Raise ValueError
    end.


(** The positions [df.sample(n)] takes in a table of [len] rows. *)
Definition sampled_positions (w : World) (len : nat) (n : Z) : list nat :=
  take (Z.to_nat n) (shuffled (len - 1) (seq 0 len) (tape w) (cursor w)).

(** The channels line 62 draws, after the [len - 1] draws of the sample. *)
Definition nudge_channels (w : World) (len : nat) (n : Z) : list string :=
  map (fun q => nth (Z.to_nat (bounded 0 (Z.of_nat (length CHANNELS)) q))
                    CHANNELS "Email"%string)
      (cells (advance (len - 1) w) (Z.to_nat n)).

(** What [get_donation_nudges] returns or raises on the table [f]. *)
Definition nudges_outcome (w : World) (f : Frame) (n : Z)
  : outcome (list NudgeRow) :=
  if n <? 0 then Raise ValueError
  else if Z.of_nat (length f) <? n then Raise ValueError
  else
    Return (map nudge_columns
              (zip_with set_suggested_channel (nudge_channels w (length f) n)
                 (map (fun row => set_suggested_ask
                                    (fround 0 (fmul (avg_donation row) 1.25)) row)
                      (omap (fun p => f !! p)
                            (sampled_positions w (length f) n))))).


(** ** app.py, lines 80-85 and 125: the figures of the script

    The pandas operations the script applies to a donation table between
    its Streamlit calls. *)

(** [Series.sum()] of an int64 column: int64 additions. *)
Definition series_sum (col : list Z) : Z := fold_left int64_add col 0.

(** [Series.nunique()]: the number of distinct non-missing values. *)
Definition nunique (col : list (option Z)) : nat :=
  length (remove_dups (omap id col)).

(** [df.groupby('campaign')['amount'].sum().reset_index()]: one row per
    campaign that occurs, in ascending order of the campaign name, with the
    sum of its amounts. *)
Definition groupby_campaign_sum (df : list DonationEvent) : list (string * Z) :=
  map (fun c => (c, series_sum
                      (map ev_amount
                           (List.filter (fun e => bool_decide (ev_campaign e = c)) df))))
      (sort_by String.leb (remove_dups (map ev_campaign df))).

(** [.sort_values('amount', ascending=False)]; rows with equal amounts keep
    their order (pandas' descending sort over NumPy's sort, which is an
    insertion sort on so few rows). *)
Definition sort_values_amount_desc (rows : list (string * Z)) : list (string * Z) :=
  sort_by (fun a b => snd b <=? snd a) rows.

(** The sum of a list of integers, without wrap-around. *)
Definition zsum (l : list Z) : Z := fold_right Z.add 0 l.

(** ** The primitives on concrete values *)

Example rint_ties :
  rint (5 # 2) = 2 /\ rint (7 # 2) = 4 /\ rint (- (5 # 2)) = -2
  /\ rint (12 # 5) = 2.
Proof. repeat split. Qed.

Example np_float64_nearest_double :
  np_float64 (1 # 10) = Fin (3602879701896397 # 36028797018963968) /\
  np_float64 1.2 = Fin (5404319552844595 # 4503599627370496) /\
  np_float64 (3 # 2) = Fin (3 # 2) /\
  np_float64 (pow2 1024) = Inf false /\
  np_float64 (pow2 (-1080)) = Fin 0.
Proof. repeat split; vm_compute; reflexivity. Qed.

(** Line 61 on some values: the float64 nearest to 1.2 times 1.25 is just
    below 1.5 as a real number and 1.5 as a float64 product. *)
Example line_61_on_values :
  fround 0 (fmul (Fin (5404319552844595 # 4503599627370496)) 1.25) = Fin 2 /\
  fround 0 (fmul (Fin (40 # 3)) 1.25) = Fin 17 /\
  fround 0 (fmul (Fin 2) 1.25) = Fin 2 /\
  fround 0 (fmul (Fin 2.8) 1.25) = Fin 4 /\
  fround 0 (fmul (Fin (200 # 11)) 1.25) = Fin 23 /\
  fround 0 (fmul NaN 1.25) = NaN /\
  fround 0 (fmul (Inf false) 1.25) = Inf false.
Proof. repeat split; vm_compute; reflexivity. Qed.

Example np_round_two_decimals :
  (np_round 2 (0.8249) == 0.82)%Q /\ (np_round 2 (0.949999) == 0.95)%Q.
Proof. split; reflexivity. Qed.

Example astype_int_truncates :
  astype_int (7 # 2) = 3 /\ astype_int (- (7 # 2)) = -3
  /\ astype_int (inject_Z (2 ^ 63)) = INT64_MIN.
Proof. repeat split. Qed.

Example range_and_str :
  range 1001 1004 = [1001; 1002; 1003] /\ range 0 (-1) = []
  /\ str 12 = "12"%string.
Proof. repeat split. Qed.

Example np_select_first_match :
  np_select [[true; false; false]; [true; true; false]] ["a"; "b"]%string
            (replicate 3 "c"%string)
  = ["a"; "b"; "c"]%string.
Proof. reflexivity. Qed.

Example value_counts_example :
  value_counts [Some "x"; Some "y"; None; Some "y"]%string
  = [("y", 2%nat); ("x", 1%nat)]%string /\
  value_counts [Some "b"; Some "a"; Some "a"; Some "b"; Some "c"]%string
  = [("b", 2%nat); ("a", 2%nat); ("c", 1%nat)]%string.
Proof. split; reflexivity. Qed.

(** ** The monad and the random tape *)

Lemma advance_0 w : advance 0 w = w.
Proof. destruct w; unfold advance; simpl. by rewrite Nat.add_0_r. Qed.

Lemma advance_advance n m w : advance m (advance n w) = advance (n + m) w.
Proof. unfold advance; simpl. by rewrite Nat.add_assoc. Qed.

Lemma length_cells w n : length (cells w n) = n.
Proof. unfold cells. by rewrite length_map, length_seq. Qed.

Lemma lookup_cells w n i :
  (i < n)%nat -> cells w n !! i = Some (tape w (cursor w + i)%nat).
Proof.
  intros Hi. unfold cells. rewrite list_lookup_fmap, lookup_seq_lt by done.
  done.
Qed.

Lemma cells_S w n :
  cells w (S n) = tape w (cursor w) :: cells (advance 1 w) n.
Proof.
  unfold cells. simpl. rewrite Nat.add_0_r. f_equal.
  rewrite <- seq_shift, map_map. apply map_ext. intros i.
  f_equal. lia.
Qed.

Lemma bind_return {A B} (m : M A) (k : A -> M B) w a w' :
  m w = (Return a, w') -> bind m k w = k a w'.
Proof. intros H. unfold bind. by rewrite H. Qed.

Lemma bind_raise {A B} (m : M A) (k : A -> M B) w e w' :
  m w = (Raise e, w') -> bind m k w = (Raise e, w').
Proof. intros H. unfold bind. by rewrite H. Qed.

(** One step of a run: the first command of a sequence returns. *)
Ltac mstep tac := erewrite bind_return by tac.

(** A loop whose body makes one draw and reads the clock. *)
Lemma for_each_draws {A B} (xs : list A) (body : A -> M B) (g : Z -> Q -> B) w :
  (forall x w0, body x w0 = (Return (g (today w0) (tape w0 (cursor w0))), advance 1 w0)) ->
  for_each xs body w
  = (Return (map (g (today w)) (cells w (length xs))), advance (length xs) w).
Proof.
  intros Hbody. revert w. induction xs as [|x xs IH]; intros w.
  - simpl. unfold ret. by rewrite advance_0.
  - cbn [for_each length]. unfold bind. rewrite Hbody, IH. unfold ret.
    rewrite cells_S, advance_advance. done.
Qed.

Lemma random_raw_n_run n w :
  random_raw_n n w = (Return (cells w n), advance n w).
Proof.
  unfold random_raw_n.
  rewrite (for_each_draws _ _ (fun _ q => q)) by done.
  by rewrite map_id, length_seq.
Qed.

(** ** The heap *)

Lemma deref_run r f w : heap w !! r = Some f -> deref r w = (Return f, w).
Proof. intros H. unfold deref. by rewrite H. Qed.

Lemma lookup_new_frame f w :
  heap (with_new_frame f w) !! length (heap w) = Some f.
Proof. simpl. rewrite lookup_app_r by lia. by rewrite Nat.sub_diag. Qed.

Lemma lookup_with_frame_eq r f w g :
  heap w !! r = Some g -> heap (with_frame r f w) !! r = Some f.
Proof.
  intros H. simpl. apply list_lookup_insert_eq. by eapply lookup_lt_Some.
Qed.

Lemma with_frame_new f g w :
  with_frame (length (heap w)) g (with_new_frame f w) = with_new_frame g w.
Proof.
  unfold with_frame, with_new_frame. simpl. f_equal.
  rewrite insert_app_r_alt by lia. by rewrite Nat.sub_diag.
Qed.

Lemma df_getitem_run {V} r (col : Row -> V) f w :
  heap w !! r = Some f -> df_getitem r col w = (Return (map col f), w).
Proof. intros H. unfold df_getitem, bind. by rewrite (deref_run _ _ _ H). Qed.

Lemma df_setitem_run {V} (set : V -> Row -> Row) r values f w :
  heap w !! r = Some f -> length values = length f ->
  df_setitem set r values w
  = (Return tt, with_frame r (zip_with set values f) w).
Proof.
  intros H Hlen. unfold df_setitem, bind. rewrite (deref_run _ _ _ H).
  destruct f as [|x f], values as [|v values]; try discriminate; try done.
  rewrite Hlen, Nat.eqb_refl. done.
Qed.

Lemma df_setitem_mismatch {V} (set : V -> Row -> Row) r values f w :
  heap w !! r = Some f -> f <> [] -> length values <> length f ->
  df_setitem set r values w = (Raise ValueError, w).
Proof.
  intros H Hne Hlen. unfold df_setitem, bind. rewrite (deref_run _ _ _ H).
  destruct f as [|x f]; [done|].
  apply Nat.eqb_neq in Hlen. by rewrite Hlen.
Qed.

Lemma df_setitem_scalar_run {V} (set : V -> Row -> Row) r v f w :
  heap w !! r = Some f ->
  df_setitem_scalar set r v w = (Return tt, with_frame r (map (set v) f) w).
Proof.
  intros H. unfold df_setitem_scalar, bind. by rewrite (deref_run _ _ _ H).
Qed.

(** ** generate_synthetic_donors *)

Lemma length_range lo hi : length (range lo hi) = Z.to_nat (hi - lo).
Proof. unfold range. by rewrite length_map, length_seq. Qed.

Lemma lookup_range lo hi i :
  (i < Z.to_nat (hi - lo))%nat -> range lo hi !! i = Some (lo + Z.of_nat i).
Proof.
  intros Hi. unfold range. rewrite list_lookup_fmap, lookup_seq_lt by done.
  done.
Qed.

Lemma generate_negative n w :
  n < 0 -> generate_synthetic_donors n w = (Raise ValueError, w).
Proof.
  intros Hn. unfold generate_synthetic_donors, bind.
  assert (range 0 n = []) as ->.
  { unfold range. by replace (Z.to_nat (n - 0)) with 0%nat by lia. }
  cbn [for_each]. unfold ret, np_random_randint_n.
  apply Z.ltb_lt in Hn. rewrite Hn. done.
Qed.

Lemma np_random_randint_n_run lo hi size w :
  lo < hi -> 0 <= size ->
  np_random_randint_n lo hi size w
  = (Return (map (bounded lo hi) (cells w (Z.to_nat size))),
     advance (Z.to_nat size) w).
Proof.
  intros Hlh Hs. unfold np_random_randint_n.
  assert ((hi <=? lo) = false) as -> by lia.
  assert ((size <? 0) = false) as -> by lia.
  mstep ltac:(apply random_raw_n_run). done.
Qed.

Lemma np_random_lognormal_run mean sigma size w :
  Qle_bool 0 sigma = true -> 0 <= size ->
  np_random_lognormal mean sigma size w
  = (Return (cells w (Z.to_nat size)), advance (Z.to_nat size) w).
Proof.
  intros Hsig Hs. unfold np_random_lognormal. rewrite Hsig.
  assert ((size <? 0) = false) as -> by lia.
  apply random_raw_n_run.
Qed.

Lemma pd_DataFrame_run ids names dates tds tas w :
  length names = length ids -> length dates = length ids ->
  length tds = length ids -> length tas = length ids ->
  pd_DataFrame ids names dates tds tas w
  = (Return (length (heap w)),
     with_new_frame
       (map (fun i => mkRow i (ids !! i) (names !! i) (dates !! i)
                            (tds !! i) (tas !! i) NaN None None None NaN None)
            (seq 0 (length ids))) w).
Proof.
  intros H1 H2 H3 H4. unfold pd_DataFrame.
  rewrite H1, H2, H3, H4, Nat.eqb_refl. done.
Qed.

Lemma generate_run n w :
  0 <= n ->
  generate_synthetic_donors n w
  = (Return (length (heap w)),
     with_new_frame (map (generated_row w (Z.to_nat n)) (seq 0 (Z.to_nat n)))
                    (advance (3 * Z.to_nat n) w)).
Proof.
  intros Hn. set (N := Z.to_nat n).
  assert (length (range 0 n) = N) as HlenR.
  { rewrite length_range. unfold N. f_equal. lia. }
  assert (length (range 1001 (1001 + n)) = N) as HlenI.
  { rewrite length_range. unfold N. f_equal. lia. }
  unfold generate_synthetic_donors.
  mstep ltac:(by apply (for_each_draws _ _ (fun t q => t - bounded 30 730 q))).
  rewrite HlenR.
  mstep ltac:(by apply np_random_randint_n_run).
  mstep ltac:(by apply np_random_lognormal_run).
  fold N. rewrite !advance_advance.
  mstep ltac:(apply pd_DataFrame_run;
              rewrite ?length_map, ?length_cells, ?HlenR, ?HlenI; done).
  rewrite HlenI.
  mstep ltac:(apply df_getitem_run, lookup_new_frame).
  mstep ltac:(apply df_getitem_run, lookup_new_frame).
  mstep ltac:(apply df_setitem_run; [apply lookup_new_frame|];
              unfold col_div;
              rewrite length_zip_with, !length_map, length_seq; lia).
  unfold ret. f_equal.
  rewrite with_frame_new. replace (N + N + N)%nat with (3 * N)%nat by lia.
  f_equal. apply list_eq. intros i.
  unfold col_div. rewrite !lookup_zip_with, !list_lookup_fmap.
  destruct (decide (i < N)%nat) as [Hi|Hi].
  - rewrite lookup_seq_lt by done. cbn [fmap option_fmap option_map mbind option_bind
      total_amount total_donations Nat.add].
    rewrite !list_lookup_fmap, !lookup_range, !lookup_cells by lia.
    cbn. unfold generated_row. by rewrite Z.add_0_l.
  - by rewrite lookup_seq_ge by lia.
Qed.

Lemma bounded_range lo hi q : lo < hi -> lo <= bounded lo hi q < hi.
Proof.
  intros H. unfold bounded.
  pose proof (Z.mod_pos_bound (Qfloor q) (hi - lo)). lia.
Qed.

Lemma astype_int_in_range x :
  (0 <= x)%Q -> (x <= inject_Z (2 ^ 63 - 1024))%Q ->
  astype_int x = Qfloor x /\ 0 <= astype_int x <= 2 ^ 63 - 1024.
Proof.
  destruct x as [a b]. unfold Qle, astype_int, Qfloor, INT64_MIN, INT64_MAX.
  cbn [Qnum Qden inject_Z]. intros H0 H1.
  assert (0 <= a) by lia.
  rewrite Z.quot_div_nonneg by lia.
  assert (0 <= a / Z.pos b) by (apply Z.div_pos; lia).
  assert (a / Z.pos b < 2 ^ 63 - 1024 + 1)
    by (apply Z.div_lt_upper_bound; lia).
  assert ((- 2 ^ 63 <=? a / Z.pos b) = true) as -> by lia.
  assert ((a / Z.pos b <=? 2 ^ 63 - 1) = true) as -> by lia.
  cbn [andb]. lia.
Qed.

Lemma true_divide_nonneg a b :
  0 <= a -> 0 < b ->
  exists q, true_divide a b = Fin q /\ (q == inject_Z a / inject_Z b)%Q /\ (0 <= q)%Q.
Proof.
  intros Ha Hb. unfold true_divide.
  assert ((b =? 0) = false) as -> by lia.
  eexists; split; [done|]. split; [reflexivity|].
  apply Qle_shift_div_l.
  - unfold Qlt; simpl; lia.
  - rewrite Qmult_0_l. unfold Qle; simpl; lia.
Qed.

Lemma demo_support (h : list Frame) (c : nat) (t : Z) :
  lognormal_support (mkWorld h demo_tape c t).
Proof.
  intros i. cbn [tape]. unfold demo_tape, Qle, Qlt. cbn [Qnum Qden inject_Z].
  pose proof (Nat.mod_upper_bound (7 * i + 3) 2000). lia.
Qed.

(** ** Claims on generate_synthetic_donors *)

(** C9, as stated, fails at count = 0: [generate_synthetic_donors(0)] raises
    nothing and returns an empty donor table. *)
Lemma generate_zero_returns :
  ~ (forall n w, n <= 0 -> raised (fst (generate_synthetic_donors n w)) = true).
Proof.
  intros H. specialize (H 0 demo_world). vm_compute in H.
  specialize (H ltac:(discriminate)). discriminate.
Qed.

(** C9 (amended): [generate_synthetic_donors] raises exactly when the count
    is negative, and then a ValueError (NumPy's check of the size); for every
    count >= 0, zero included, it returns the reference of the new table. *)
Theorem generate_raises_iff_negative (n : Z) (w : World) :
  fst (generate_synthetic_donors n w)
  = if n <? 0 then Raise ValueError else Return (length (heap w)).
Proof.
  destruct (Z.ltb_spec n 0) as [Hn|Hn].
  - by rewrite generate_negative.
  - by rewrite generate_run.
Qed.

#[local] Instance range_offset_inj (lo : Z) : Inj (=) (=) (fun i : nat => lo + Z.of_nat i).
Proof. intros i j H. lia. Qed.

Lemma NoDup_range lo hi : NoDup (range lo hi).
Proof. unfold range. apply (NoDup_fmap_2 _), NoDup_seq. Qed.

(** C4: for every positive count [n] (and log-normal samples in their
    support), [generate_synthetic_donors] returns a table of exactly [n]
    rows whose donor ids are 1001, 1002, ..., 1000 + n in order, hence
    unique and contiguous; every row has 1 <= total_donations < 50, a
    non-negative total_amount, and an avg_donation that is the finite,
    non-negative quotient total_amount / total_donations. *)
Theorem generate_synthetic_donors_population (n : Z) (w : World) :
  0 < n -> lognormal_support w ->
  exists (donors_df : ref) (w' : World) (f : Frame),
    generate_synthetic_donors n w = (Return donors_df, w') /\
    heap w' !! donors_df = Some f /\
    length f = Z.to_nat n /\
    map donor_id f = map Some (range 1001 (1001 + n)) /\
    NoDup (map donor_id f) /\
    Forall (fun r => exists td ta q,
              total_donations r = Some td /\ 1 <= td < 50 /\
              total_amount r = Some ta /\ 0 <= ta /\
              avg_donation r = Fin q /\
              (q == inject_Z ta / inject_Z td)%Q /\ (0 <= q)%Q) f.
Proof.
  intros Hn Hsup. set (N := Z.to_nat n).
  assert (map donor_id (map (generated_row w N) (seq 0 N))
          = map Some (range 1001 (1001 + n))) as Hids.
  { unfold range. rewrite !map_map.
    replace (Z.to_nat (1001 + n - 1001)) with N by lia. done. }
  eexists _, _, _. rewrite generate_run by lia.
  split; [done|]. split; [apply (lookup_new_frame _ (advance _ w))|]. fold N.
  split; [by rewrite length_map, length_seq|].
  split; [done|].
  split; [rewrite Hids; apply (NoDup_fmap_2 _), NoDup_range|].
  apply Forall_forall. intros r [i [-> _]]%list_elem_of_fmap.
  cbn [generated_row total_donations total_amount avg_donation].
  set (td := bounded 1 50 _). set (x := tape w _).
  pose proof (bounded_range 1 50 (tape w (cursor w + N + i)%nat) ltac:(lia)) as Htd.
  fold td in Htd.
  destruct (Hsup (cursor w + (N + N) + i)%nat) as [Hx0 Hx1]. fold x in Hx0, Hx1.
  destruct (astype_int_in_range x Hx0 Hx1) as [_ [Hta _]].
  destruct (true_divide_nonneg (astype_int x) td Hta ltac:(lia)) as (q & Hq & Heq & Hq0).
  exists td, (astype_int x), q. done.
Qed.

Lemma generate_synthetic_donors_population_example :
  0 < 10 /\ lognormal_support demo_world /\
  exists (donors_df : ref) (w' : World) (f : Frame),
    generate_synthetic_donors 10 demo_world = (Return donors_df, w') /\
    heap w' !! donors_df = Some f /\
    length f = Z.to_nat 10 /\
    map donor_id f = map Some (range 1001 (1001 + 10)) /\
    NoDup (map donor_id f) /\
    Forall (fun r => exists td ta q,
              total_donations r = Some td /\ 1 <= td < 50 /\
              total_amount r = Some ta /\ 0 <= ta /\
              avg_donation r = Fin q /\
              (q == inject_Z ta / inject_Z td)%Q /\ (0 <= q)%Q) f.
Proof.
  split; [lia|]. split; [apply demo_support|].
  apply (generate_synthetic_donors_population 10 demo_world);
    [lia | apply demo_support].
Defined.

(** ** get_donor_segments *)

Lemma np_select_rows (now : Z) (f : Frame) :
  np_select
    [ col_and (col_gt (map total_amount f) 150) (col_gt (map total_donations f) 10);
      col_and (col_gt (map total_amount f) 50) (col_gt (map join_date f) (now - 90));
      col_eq (map total_donations f) 1 ]
    [CHAMPIONS; EMERGING; ONE_TIME]
    (replicate (length (map total_amount f)) AT_RISK)
  = map (row_label now) f.
Proof.
  unfold col_and, col_gt, col_eq. cbn [np_select].
  induction f as [|r f IH]; [done|].
  cbn [map zip_with length replicate]. rewrite IH. unfold row_label.
  by destruct (gt_opt (total_amount r) 150 && gt_opt (total_donations r) 10),
     (gt_opt (total_amount r) 50 && gt_opt (join_date r) (now - 90)),
     (eq_opt (total_donations r) 1).
Qed.

Lemma zip_with_set_map {V} (set : V -> Row -> Row) (g : Row -> V) (f : Frame) :
  zip_with set (map g f) f = map (fun r => set (g r) r) f.
Proof. induction f as [|r f IH]; [done|]. cbn. by rewrite IH. Qed.

Lemma get_donor_segments_run donors_df f w :
  heap w !! donors_df = Some f ->
  get_donor_segments donors_df w
  = (Return (value_counts (map segment (labelled (today w) f))),
     with_frame donors_df (labelled (today w) f) w).
Proof.
  intros Hf. unfold get_donor_segments.
  do 3 mstep ltac:(by apply df_getitem_run).
  mstep ltac:(reflexivity).
  rewrite np_select_rows.
  mstep ltac:(eapply df_setitem_run; [done | by rewrite length_map]).
  rewrite zip_with_set_map. fold (labelled (today w) f).
  mstep ltac:(eapply df_getitem_run, lookup_with_frame_eq; done).
  done.
Qed.

Lemma insert_sorted_perm {A} (le : A -> A -> bool) x l :
  insert_sorted le x l ≡ₚ x :: l.
Proof.
  induction l as [|y l IH]; [done|]. cbn.
  destruct (le x y); [done|]. rewrite IH. apply Permutation_swap.
Qed.

Lemma sort_by_perm {A} (le : A -> A -> bool) l : sort_by le l ≡ₚ l.
Proof.
  induction l as [|x l IH]; [done|].
  cbn. rewrite insert_sorted_perm. by rewrite <- IH at 2.
Qed.

Lemma indicator_sum_0 (x : string) ks :
  x ∉ ks -> sum_list_with (fun k => if bool_decide (x = k) then 1 else 0)%nat ks = 0%nat.
Proof.
  induction ks as [|k ks IH]; [done|]. intros Hx.
  apply not_elem_of_cons in Hx as [Hxk Hx]. cbn.
  rewrite bool_decide_eq_false_2 by done. by rewrite IH.
Qed.

Lemma indicator_sum_1 (x : string) ks :
  NoDup ks -> x ∈ ks ->
  sum_list_with (fun k => if bool_decide (x = k) then 1 else 0)%nat ks = 1%nat.
Proof.
  induction 1 as [|k ks Hk Hnd IH]; intros Hx.
  - by apply elem_of_nil in Hx.
  - cbn. destruct (decide (x = k)) as [->|Hxk].
    + rewrite bool_decide_eq_true_2 by done. by rewrite indicator_sum_0.
    + rewrite bool_decide_eq_false_2 by done.
      apply elem_of_cons in Hx as [?|Hx]; [done|]. by rewrite IH.
Qed.

Lemma sum_with_cons {A} (g : A -> nat) x l :
  sum_list_with g (x :: l) = (g x + sum_list_with g l)%nat.
Proof. done. Qed.

Lemma count_of_cons k x labels :
  count_of k (x :: labels)
  = ((if bool_decide (x = k) then 1 else 0) + count_of k labels)%nat.
Proof. unfold count_of. cbn. by destruct (bool_decide (x = k)). Qed.

Lemma count_of_total (labels ks : list string) :
  NoDup ks -> (forall x, x ∈ labels -> x ∈ ks) ->
  sum_list_with (fun k => count_of k labels) ks = length labels.
Proof.
  intros Hnd. induction labels as [|x labels IH]; intros Hin.
  - clear. induction ks as [|k ks IHk]; [done|].
    cbn [sum_list_with]. rewrite IHk. done.
  - transitivity
      (sum_list_with (fun k => if bool_decide (x = k) then 1 else 0)%nat ks
       + sum_list_with (fun k => count_of k labels) ks)%nat.
    + clear. induction ks as [|k ks IHk]; [done|].
      rewrite !sum_with_cons, IHk, count_of_cons. lia.
    + rewrite indicator_sum_1, IH; [done|..].
      * intros y Hy. apply Hin. by right.
      * done.
      * apply Hin. by left.
Qed.

Lemma elem_of_unique l x : x ∈ unique l <-> x ∈ l.
Proof. unfold unique. by rewrite elem_of_reverse, elem_of_remove_dups, elem_of_reverse. Qed.

Lemma NoDup_unique l : NoDup (unique l).
Proof. unfold unique. rewrite reverse_Permutation. apply NoDup_remove_dups. Qed.

Lemma value_counts_sum col :
  sum_list_with snd (value_counts col) = length (omap id col).
Proof.
  unfold value_counts. rewrite sort_by_perm.
  set (labels := omap id col).
  rewrite <- (count_of_total labels (unique labels)).
  - generalize (unique labels). intros ks.
    induction ks as [|k ks IH]; [done|]. cbn. by rewrite IH.
  - apply NoDup_unique.
  - intros x Hx. by apply elem_of_unique.
Qed.

Lemma value_counts_labels col :
  NoDup (map fst (value_counts col)) /\
  Forall (fun lc => lc.1 ∈ omap id col /\ lc.2 = count_of lc.1 (omap id col))
         (value_counts col).
Proof.
  unfold value_counts. set (labels := omap id col). split.
  - rewrite sort_by_perm, map_map. cbn. rewrite map_id. apply NoDup_unique.
  - rewrite sort_by_perm. apply Forall_forall.
    intros [l c] (l' & [= -> ->] & Hl)%list_elem_of_fmap. cbn.
    split; [|done]. by apply elem_of_unique.
Qed.

Lemma labelled_segments now f :
  map segment (labelled now f) = map (fun r => Some (row_label now r)) f.
Proof. unfold labelled. rewrite map_map. done. Qed.

Lemma omap_id_Some {A B} (g : A -> B) (l : list A) :
  omap id (map (fun x => Some (g x)) l) = map g l.
Proof. induction l as [|x l IH]; [done|]. cbn. by rewrite IH. Qed.

Lemma row_label_cases now r :
  row_label now r ∈ [CHAMPIONS; EMERGING; ONE_TIME; AT_RISK].
Proof.
  unfold row_label.
  destruct (_ && _); [repeat constructor|].
  destruct (_ && _); [repeat constructor|].
  destruct (eq_opt _ _); repeat constructor.
Qed.

(** ** Claims on get_donor_segments *)

(** C3, as stated, fails on the first label: a donor with total_amount 200
    (> 150) and total_donations 11 (> 10) is labelled with the string of
    line 42, which starts with a heart emoji, not with "Champions". *)
Lemma champions_label_differs :
  total_amount champion_row = Some 200 /\
  total_donations champion_row = Some 11 /\
  (map segment <$> heap (snd (get_donor_segments 0%nat champion_world)) !! 0%nat)
    = Some [Some "💜 Champions"%string] /\
  (map segment <$> heap (snd (get_donor_segments 0%nat champion_world)) !! 0%nat)
    <> Some [Some "Champions"%string].
Proof. repeat split; try reflexivity. vm_compute. discriminate. Qed.

(** C3 (amended): [get_donor_segments] labels every donor by the first rule
    that matches: total_amount > 150 and total_donations > 10 gives
    "💜 Champions"; otherwise total_amount > 50 and join_date later than 90
    days before today gives "Emerging Supporters"; otherwise
    total_donations == 1 gives "One-Time Givers"; otherwise
    "At-Risk Donors".  The label is one of these four strings. *)
Theorem segment_rule_first_match (w : World) (donors_df : ref) (f : Frame) :
  heap w !! donors_df = Some f ->
  exists counts w' f',
    get_donor_segments donors_df w = (Return counts, w') /\
    heap w' !! donors_df = Some f' /\
    length f' = length f /\
    forall i r ta td jd,
      f !! i = Some r ->
      total_amount r = Some ta -> total_donations r = Some td ->
      join_date r = Some jd ->
      exists r' l,
        f' !! i = Some r' /\ segment r' = Some l /\
        l = (if (150 <? ta) && (10 <? td) then "💜 Champions"%string
             else if (50 <? ta) && (today w - 90 <? jd)
                  then "Emerging Supporters"%string
             else if td =? 1 then "One-Time Givers"%string
             else "At-Risk Donors"%string) /\
        l ∈ ["💜 Champions"; "Emerging Supporters"; "One-Time Givers";
             "At-Risk Donors"]%string.
Proof.
  intros Hf. eexists _, _, _. rewrite (get_donor_segments_run _ _ _ Hf).
  split; [done|]. split; [by eapply lookup_with_frame_eq|].
  split; [unfold labelled; by rewrite length_map|].
  intros i r ta td jd Hr Hta Htd Hjd.
  exists (set_segment (row_label (today w) r) r), (row_label (today w) r).
  split; [unfold labelled; by rewrite list_lookup_fmap, Hr|].
  split; [done|]. split; [|apply row_label_cases].
  unfold row_label. rewrite Hta, Htd, Hjd. done.
Qed.

Lemma segment_rule_first_match_example :
  heap champion_world !! 0%nat = Some [champion_row] /\
  exists counts w' f',
    get_donor_segments 0%nat champion_world = (Return counts, w') /\
    heap w' !! 0%nat = Some f' /\
    length f' = length [champion_row] /\
    forall i r ta td jd,
      [champion_row] !! i = Some r ->
      total_amount r = Some ta -> total_donations r = Some td ->
      join_date r = Some jd ->
      exists r' l,
        f' !! i = Some r' /\ segment r' = Some l /\
        l = (if (150 <? ta) && (10 <? td) then "💜 Champions"%string
             else if (50 <? ta) && (today champion_world - 90 <? jd)
                  then "Emerging Supporters"%string
             else if td =? 1 then "One-Time Givers"%string
             else "At-Risk Donors"%string) /\
        l ∈ ["💜 Champions"; "Emerging Supporters"; "One-Time Givers";
             "At-Risk Donors"]%string.
Proof.
  split; [reflexivity|].
  apply (segment_rule_first_match champion_world 0%nat [champion_row]).
  reflexivity.
Defined.

(** C7: [get_donor_segments] never raises on a donor table; afterwards every
    row carries exactly one label, one of the four; the returned table has
    one entry per label in use, whose count is the number of donors carrying
    that label; and the counts add up to the number of donors. *)
Theorem segmentation_partitions (w : World) (donors_df : ref) (f : Frame) :
  heap w !! donors_df = Some f ->
  exists counts w' f',
    get_donor_segments donors_df w = (Return counts, w') /\
    heap w' !! donors_df = Some f' /\
    length f' = length f /\
    Forall (fun r => exists l, segment r = Some l /\
                       l ∈ [CHAMPIONS; EMERGING; ONE_TIME; AT_RISK]) f' /\
    NoDup (map fst counts) /\
    Forall (fun lc =>
              lc.2 = length (List.filter
                               (fun r => bool_decide (segment r = Some lc.1)) f')
              /\ (0 < lc.2)%nat) counts /\
    sum_list_with snd counts = length f.
Proof.
  intros Hf. eexists _, _, _. rewrite (get_donor_segments_run _ _ _ Hf).
  split; [done|]. split; [by eapply lookup_with_frame_eq|].
  set (now := today w).
  split; [unfold labelled; by rewrite length_map|].
  split.
  { apply Forall_forall. intros r' (r & -> & _)%list_elem_of_fmap.
    exists (row_label now r). split; [done|]. apply row_label_cases. }
  destruct (value_counts_labels (map segment (labelled now f))) as [Hnd Hall].
  split; [done|]. split.
  - eapply Forall_impl; [exact Hall|]. intros [l c]. cbn. intros [Hin ->].
    rewrite labelled_segments, omap_id_Some in *.
    assert (forall g : Frame,
              count_of l (map (row_label now) g)
              = length (List.filter (fun r => bool_decide (segment r = Some l))
                                    (labelled now g))) as Hcount.
    { induction g as [|r g IH]; [done|].
      rewrite map_cons, count_of_cons, IH. cbn.
      destruct (decide (row_label now r = l)) as [Heq|Hne].
      - rewrite !bool_decide_eq_true_2 by congruence. done.
      - rewrite !bool_decide_eq_false_2 by congruence. done. }
    split; [apply Hcount|]. 
    apply list_elem_of_In, (count_occ_In string_dec) in Hin.
    assert (forall ls, count_of l ls = count_occ string_dec ls l) as ->; [|lia].
    induction ls as [|x ls IH]; [done|].
    rewrite count_of_cons, IH. cbn. destruct (string_dec x l).
    + rewrite bool_decide_eq_true_2 by done. done.
    + rewrite bool_decide_eq_false_2 by done. done.
  - rewrite value_counts_sum, labelled_segments, omap_id_Some.
    by rewrite length_map.
Qed.

Lemma segmentation_partitions_example :
  heap champion_world !! 0%nat = Some [champion_row] /\
  exists counts w' f',
    get_donor_segments 0%nat champion_world = (Return counts, w') /\
    heap w' !! 0%nat = Some f' /\
    length f' = length [champion_row] /\
    Forall (fun r => exists l, segment r = Some l /\
                       l ∈ [CHAMPIONS; EMERGING; ONE_TIME; AT_RISK]) f' /\
    NoDup (map fst counts) /\
    Forall (fun lc =>
              lc.2 = length (List.filter
                               (fun r => bool_decide (segment r = Some lc.1)) f')
              /\ (0 < lc.2)%nat) counts /\
    sum_list_with snd counts = length [champion_row].
Proof.
  split; [reflexivity|].
  apply (segmentation_partitions champion_world 0%nat [champion_row]).
  reflexivity.
Defined.

(** ** Frames of the caller are kept *)

Section keeps.
Context (h0 : list Frame).

Lemma keeps_ret {A} (a : A) (Q : A -> Prop) : Q a -> keeps h0 (ret a) Q.
Proof. intros HQ w Hw. done. Qed.

Lemma keeps_raise {A} e (Q : A -> Prop) : keeps h0 (raise e) Q.
Proof. intros w Hw. done. Qed.

Lemma keeps_bind {A B} (m : M A) (k : A -> M B) Q R :
  keeps h0 m Q -> (forall a, Q a -> keeps h0 (k a) R) -> keeps h0 (bind m k) R.
Proof.
  intros Hm Hk w Hw. destruct (Hm w Hw) as [Hw' HQ].
  unfold bind. destruct (m w) as [[a|e] w']; cbn in *; [|done].
  by apply Hk.
Qed.

Lemma keeps_now : keeps h0 datetime_now_date (fun _ => True).
Proof. intros w Hw. done. Qed.

Lemma keeps_deref r : keeps h0 (deref r) (fun _ => True).
Proof. intros w Hw. unfold deref. cbn. by destruct (heap w !! r). Qed.

Lemma keeps_alloc f : keeps h0 (alloc f) (private h0).
Proof.
  intros w Hw. cbn. split.
  - by apply prefix_app_r.
  - unfold private. by apply prefix_length.
Qed.

Lemma keeps_store r f : private h0 r -> keeps h0 (store r f) (fun _ => True).
Proof.
  intros Hr w [k Hk]. cbn. rewrite Hk. split; [|done].
  rewrite insert_app_r_alt by done. by eexists.
Qed.

Lemma keeps_random_raw : keeps h0 random_raw (fun _ => True).
Proof. intros w Hw. done. Qed.

Lemma keeps_for_each {A B} (xs : list A) (body : A -> M B) :
  (forall x, keeps h0 (body x) (fun _ => True)) ->
  keeps h0 (for_each xs body) (fun _ => True).
Proof.
  intros Hbody. induction xs as [|x xs IH]; cbn [for_each].
  - by apply keeps_ret.
  - eapply keeps_bind; [apply Hbody|]. intros y _.
    eapply keeps_bind; [apply IH|]. intros ys _. by apply keeps_ret.
Qed.
End keeps.

(** One step of a [keeps] proof, by the shape of the computation. *)
Ltac keeps_step :=
lazymatch goal with
| |- keeps _ (bind _ _) _ => eapply keeps_bind; [|intros ? ?]
| |- keeps _ (ret _) _ => apply keeps_ret; try done
| |- keeps _ (raise _) _ => apply keeps_raise
| |- keeps _ (if ?c then _ else _) _ => destruct c
| |- keeps _ (match ?x with _ => _ end) _ => destruct x
| |- keeps _ datetime_now_date _ => apply keeps_now
| |- keeps _ (deref _) _ => apply keeps_deref
| |- keeps _ (alloc _) _ => apply keeps_alloc
| |- keeps _ (store _ _) _ => apply keeps_store; try done
| |- keeps _ random_raw _ => apply keeps_random_raw
| |- keeps _ (for_each _ _) _ => apply keeps_for_each; intros ?
end.

Ltac keeps_auto := repeat keeps_step.

Section keeps_library.
Context (h0 : list Frame).

Lemma keeps_random_raw_n n : keeps h0 (random_raw_n n) (fun _ => True).
Proof. unfold random_raw_n. keeps_auto. Qed.

Lemma keeps_randint lo hi : keeps h0 (np_random_randint lo hi) (fun _ => True).
Proof. unfold np_random_randint. keeps_auto. Qed.

Lemma keeps_randint_n lo hi size :
  keeps h0 (np_random_randint_n lo hi size) (fun _ => True).
Proof.
  unfold np_random_randint_n. keeps_auto. apply keeps_random_raw_n.
Qed.

Lemma keeps_lognormal mean sigma size :
  keeps h0 (np_random_lognormal mean sigma size) (fun _ => True).
Proof.
  unfold np_random_lognormal. keeps_auto. apply keeps_random_raw_n.
Qed.

Lemma keeps_uniform lo hi size :
  keeps h0 (np_random_uniform lo hi size) (fun _ => True).
Proof.
  unfold np_random_uniform. keeps_auto. apply keeps_random_raw_n.
Qed.

Lemma keeps_choice {A} (a : list A) size :
  keeps h0 (np_random_choice a size) (fun _ => True).
Proof.
  unfold np_random_choice. keeps_auto. apply keeps_randint_n.
Qed.

Lemma keeps_choice_p {A} (a : list A) size p :
  keeps h0 (np_random_choice_p a size p) (fun _ => True).
Proof.
  unfold np_random_choice_p. keeps_auto. apply keeps_random_raw_n.
Qed.

Lemma keeps_shuffle i x : keeps h0 (shuffle i x) (fun _ => True).
Proof. revert x. induction i as [|i IH]; intros x; cbn [shuffle]; keeps_auto. apply IH. Qed.

Lemma keeps_permutation n : keeps h0 (np_random_permutation n) (fun _ => True).
Proof. apply keeps_shuffle. Qed.

Lemma keeps_date_range start periods :
  keeps h0 (pd_date_range start periods) (fun _ => True).
Proof. unfold pd_date_range. keeps_auto. Qed.

Lemma keeps_events ts am ca ids :
  keeps h0 (pd_DataFrame_events ts am ca ids) (fun _ => True).
Proof. unfold pd_DataFrame_events. keeps_auto. Qed.

Lemma keeps_getitem {V} r (col : Row -> V) :
  keeps h0 (df_getitem r col) (fun _ => True).
Proof. unfold df_getitem. keeps_auto. Qed.

Lemma keeps_setitem {V} (set : V -> Row -> Row) r values :
  private h0 r -> keeps h0 (df_setitem set r values) (fun _ => True).
Proof. intros Hr. unfold df_setitem. keeps_auto. Qed.

Lemma keeps_setitem_scalar {V} (set : V -> Row -> Row) r v :
  private h0 r -> keeps h0 (df_setitem_scalar set r v) (fun _ => True).
Proof. intros Hr. unfold df_setitem_scalar. keeps_auto. Qed.

Lemma keeps_filter r mask : keeps h0 (df_filter r mask) (private h0).
Proof. unfold df_filter. keeps_auto. Qed.

Lemma keeps_sort_values r key : keeps h0 (df_sort_values r key) (private h0).
Proof. unfold df_sort_values. keeps_auto. Qed.

Lemma keeps_head r n : keeps h0 (df_head r n) (private h0).
Proof. unfold df_head. keeps_auto. Qed.

Lemma keeps_copy r : keeps h0 (df_copy r) (private h0).
Proof. unfold df_copy. keeps_auto. Qed.

Lemma keeps_sample r n : keeps h0 (df_sample r n) (private h0).
Proof. unfold df_sample. keeps_auto. apply keeps_permutation. Qed.

Lemma keeps_get_churn_risk_donors r n :
  keeps h0 (get_churn_risk_donors r n) (fun _ => True).
Proof.
  unfold get_churn_risk_donors.
  eapply keeps_bind with (Q := private h0).
  { eapply keeps_bind; [apply keeps_getitem|]. intros jd _.
    eapply keeps_bind; [apply keeps_now|]. intros now _.
    eapply keeps_bind; [apply keeps_filter|]. intros filtered _.
    eapply keeps_bind; [apply keeps_sort_values|]. intros sorted _.
    apply keeps_head. }
  intros top _.
  eapply keeps_bind; [apply keeps_copy|]. intros candidates Hc.
  eapply keeps_bind; [apply keeps_uniform|]. intros scores _.
  eapply keeps_bind; [by apply keeps_setitem|]. intros _ _.
  eapply keeps_bind; [by apply keeps_setitem_scalar|]. intros _ _.
  eapply keeps_bind; [apply keeps_deref|]. intros f _.
  by apply keeps_ret.
Qed.

Lemma keeps_get_donation_nudges r n :
  keeps h0 (get_donation_nudges r n) (fun _ => True).
Proof.
  unfold get_donation_nudges.
  eapply keeps_bind; [apply keeps_sample|]. intros sampled _.
  eapply keeps_bind; [apply keeps_copy|]. intros candidates Hc.
  eapply keeps_bind; [apply keeps_getitem|]. intros avg _.
  eapply keeps_bind; [by apply keeps_setitem|]. intros _ _.
  eapply keeps_bind; [apply keeps_choice|]. intros channels _.
  eapply keeps_bind; [by apply keeps_setitem|]. intros _ _.
  eapply keeps_bind; [apply keeps_deref|]. intros f _.
  by apply keeps_ret.
Qed.

Lemma keeps_get_live_donations_data_meant r n :
  keeps h0 (get_live_donations_data_meant r n) (fun _ => True).
Proof.
  unfold get_live_donations_data_meant.
  eapply keeps_bind; [apply keeps_getitem|]. intros ids _.
  eapply keeps_bind; [apply keeps_choice|]. intros donor_ids _.
  eapply keeps_bind; [apply keeps_now|]. intros now _.
  eapply keeps_bind; [apply keeps_date_range|]. intros timestamps _.
  eapply keeps_bind; [apply keeps_lognormal|]. intros draws _.
  eapply keeps_bind; [apply keeps_choice_p|]. intros campaigns _.
  eapply keeps_bind; [apply keeps_events|]. intros events _.
  eapply keeps_bind; [apply keeps_deref|]. intros right _.
  by apply keeps_ret.
Qed.

Lemma keeps_compile_statement lines :
  keeps h0 (compile_statement lines) (fun _ => True).
Proof.
  intros w Hw. unfold compile_statement. cbn [fst snd].
  split; [done|]. by destruct (scan_lines [] lines).
Qed.

Lemma keeps_get_live_donations_data r n :
  keeps h0 (get_live_donations_data r n) (fun _ => True).
Proof.
  unfold get_live_donations_data.
  eapply keeps_bind; [apply keeps_compile_statement|]. intros _ _.
  apply keeps_get_live_donations_data_meant.
Qed.
End keeps_library.

Lemma keeps_lookup {A} (m : M A) Q w r f :
  keeps (heap w) m Q -> heap w !! r = Some f -> heap (snd (m w)) !! r = Some f.
Proof.
  intros Hm Hf. destruct (Hm w) as [[k ->] _]; [done|].
  by apply lookup_app_l_Some.
Qed.

(** ** Claim on the donor table as shared state *)

(** C8, as stated, fails for [get_donor_segments]: on the table that
    [generate_synthetic_donors] has just created it assigns the segment of
    every donor record in the caller's table, which is not the table it was
    before. *)
Lemma segments_written_in_place :
  let w1 := snd (generate_synthetic_donors 2 demo_world) in
  let w2 := snd (get_donor_segments 0%nat w1) in
  (map segment <$> heap w1 !! 0%nat) = Some [None; None] /\
  (map segment <$> heap w2 !! 0%nat) = Some [Some AT_RISK; Some AT_RISK] /\
  heap w2 !! 0%nat <> heap w1 !! 0%nat.
Proof.
  cbv zeta. split; [reflexivity|]. split; [reflexivity|].
  intros H. apply (f_equal (fmap (map segment))) in H.
  vm_compute in H. discriminate.
Qed.

(** C8 (amended): [get_churn_risk_donors], [get_donation_nudges] and
    [get_live_donations_data] leave the caller's donor table exactly as it
    was, whatever the count and whether they return or raise.
    [get_donor_segments] updates the caller's table in place: it writes the
    segment column and nothing else, so the index and the six generated
    columns of every donor record are unchanged. *)
Theorem derived_views_frame (w : World) (donors_df : ref) (f : Frame) :
  heap w !! donors_df = Some f ->
  (forall n, heap (snd (get_churn_risk_donors donors_df n w)) !! donors_df = Some f) /\
  (forall n, heap (snd (get_donation_nudges donors_df n w)) !! donors_df = Some f) /\
  (forall n, heap (snd (get_live_donations_data donors_df n w)) !! donors_df = Some f) /\
  (exists labels,
     length labels = length f /\
     heap (snd (get_donor_segments donors_df w)) !! donors_df
       = Some (zip_with set_segment labels f) /\
     map base_columns (zip_with set_segment labels f) = map base_columns f).
Proof.
  intros Hf. repeat split.
  - intros n. eapply keeps_lookup; [apply keeps_get_churn_risk_donors|done].
  - intros n. eapply keeps_lookup; [apply keeps_get_donation_nudges|done].
  - intros n. eapply keeps_lookup; [apply keeps_get_live_donations_data|done].
  - exists (map (row_label (today w)) f). split; [by rewrite length_map|].
    rewrite (get_donor_segments_run _ _ _ Hf), zip_with_set_map.
    split; [by eapply lookup_with_frame_eq|].
    rewrite map_map. done.
Qed.

Lemma derived_views_frame_example :
  heap champion_world !! 0%nat = Some [champion_row] /\
  (forall n, heap (snd (get_churn_risk_donors 0%nat n champion_world)) !! 0%nat
             = Some [champion_row]) /\
  (forall n, heap (snd (get_donation_nudges 0%nat n champion_world)) !! 0%nat
             = Some [champion_row]) /\
  (forall n, heap (snd (get_live_donations_data 0%nat n champion_world)) !! 0%nat
             = Some [champion_row]) /\
  (exists labels,
     length labels = length [champion_row] /\
     heap (snd (get_donor_segments 0%nat champion_world)) !! 0%nat
       = Some (zip_with set_segment labels [champion_row]) /\
     map base_columns (zip_with set_segment labels [champion_row])
       = map base_columns [champion_row]).
Proof.
  split; [reflexivity|].
  apply (derived_views_frame champion_world 0%nat [champion_row]).
  reflexivity.
Defined.

(** ** Sampling without replacement *)

Lemma length_swap x i j : length (swap x i j) = length x.
Proof.
  unfold swap. destruct (x !! i), (x !! j); try done.
  by rewrite !length_insert.
Qed.

Lemma swap_lookup x i j k :
  (i < length x)%nat -> (j < length x)%nat ->
  swap x i j !! k
  = x !! (if decide (k = i) then j else if decide (k = j) then i else k).
Proof.
  intros Hi Hj. unfold swap.
  destruct (lookup_lt_is_Some_2 x i Hi) as [a Ha].
  destruct (lookup_lt_is_Some_2 x j Hj) as [b Hb].
  rewrite Ha, Hb.
  destruct (decide (k = i)) as [->|Hki].
  - rewrite list_lookup_insert_eq by (by rewrite length_insert). done.
  - rewrite list_lookup_insert_ne by done.
    destruct (decide (k = j)) as [->|Hkj].
    + rewrite list_lookup_insert_eq by done. done.
    + by rewrite list_lookup_insert_ne.
Qed.

Lemma swap_NoDup x i j : NoDup x -> NoDup (swap x i j).
Proof.
  intros Hnd.
  destruct (decide (i < length x)%nat) as [Hi|Hi];
    [destruct (decide (j < length x)%nat) as [Hj|Hj]|].
  - apply NoDup_alt. intros k1 k2 y.
    rewrite !swap_lookup by done. intros H1 H2.
    pose proof (proj1 (NoDup_alt x) Hnd _ _ _ H1 H2) as Heq.
    repeat case_decide; subst; congruence.
  - unfold swap. rewrite (lookup_ge_None_2 x j) by lia. by destruct (x !! i).
  - unfold swap. by rewrite (lookup_ge_None_2 x i) by lia.
Qed.

Lemma swap_elem_of x i j y : y ∈ swap x i j -> y ∈ x.
Proof.
  destruct (decide (i < length x)%nat) as [Hi|Hi];
    [destruct (decide (j < length x)%nat) as [Hj|Hj]|].
  - intros [k Hk]%list_elem_of_lookup. rewrite swap_lookup in Hk by done.
    by eapply list_elem_of_lookup_2.
  - unfold swap. rewrite (lookup_ge_None_2 x j) by lia. by destruct (x !! i).
  - unfold swap. by rewrite (lookup_ge_None_2 x i) by lia.
Qed.

Lemma shuffle_run i x w :
  shuffle i x w = (Return (shuffled i x (tape w) (cursor w)), advance i w).
Proof.
  revert x w. induction i as [|i IH]; intros x w.
  - cbn. unfold ret. by rewrite advance_0.
  - cbn [shuffle shuffled]. mstep ltac:(reflexivity).
    rewrite IH, advance_advance. cbn [tape cursor advance].
    by rewrite Nat.add_1_r.
Qed.

Lemma shuffled_spec i x t c :
  NoDup x ->
  length (shuffled i x t c) = length x /\
  NoDup (shuffled i x t c) /\
  forall y, y ∈ shuffled i x t c -> y ∈ x.
Proof.
  revert x c. induction i as [|i IH]; intros x c Hnd; [done|].
  cbn [shuffled]. set (x' := swap x _ _).
  destruct (IH x' (S c)) as (Hlen & Hnd' & Hin); [by apply swap_NoDup|].
  split; [rewrite Hlen; apply length_swap|]. split; [done|].
  intros y Hy. eapply swap_elem_of. by apply Hin.
Qed.

Lemma np_random_permutation_run n w :
  exists perm,
    np_random_permutation n w = (Return perm, advance (n - 1) w) /\
    length perm = n /\ NoDup perm /\ Forall (fun p => (p < n)%nat) perm.
Proof.
  unfold np_random_permutation. rewrite shuffle_run. eexists. split; [done|].
  destruct (shuffled_spec (n - 1) (seq 0 n) (tape w) (cursor w))
    as (Hlen & Hnd & Hin); [apply NoDup_seq|].
  split; [by rewrite Hlen, length_seq|]. split; [done|].
  apply Forall_forall. intros p Hp%Hin. apply elem_of_seq in Hp. lia.
Qed.

Lemma df_sample_run r f n w :
  heap w !! r = Some f -> 0 <= n <= Z.of_nat (length f) ->
  exists ps rows,
    df_sample r n w
    = (Return (length (heap w)),
       with_new_frame rows (advance (length f - 1) w)) /\
    length ps = Z.to_nat n /\ NoDup ps /\
    Forall2 (fun p row => f !! p = Some row) ps rows.
Proof.
  intros Hf Hn. unfold df_sample.
  mstep ltac:(by apply deref_run).
  assert ((n <? 0) = false) as -> by lia.
  assert ((Z.of_nat (length f) <? n) = false) as -> by lia.
  destruct (np_random_permutation_run (length f) w)
    as (perm & Hrun & Hlen & Hnd & Hlt).
  mstep ltac:(exact Hrun).
  set (ps := take (Z.to_nat n) perm).
  assert (is_Some (mapM (fun i => f !! i) ps)) as [rows Hrows].
  { apply mapM_is_Some, Forall_take.
    eapply Forall_impl; [exact Hlt|]. intros p Hp. cbn.
    by apply lookup_lt_is_Some_2. }
  rewrite Hrows. exists ps, rows. split; [done|].
  split; [unfold ps; rewrite length_take; lia|].
  split; [eapply sublist_NoDup; [exact Hnd | apply sublist_take]|].
  by apply mapM_Some_1.
Qed.

Lemma df_sample_too_many r f n w :
  heap w !! r = Some f -> Z.of_nat (length f) < n ->
  df_sample r n w = (Raise ValueError, w).
Proof.
  intros Hf Hn. unfold df_sample.
  mstep ltac:(by apply deref_run).
  assert ((n <? 0) = false) as -> by lia.
  assert ((Z.of_nat (length f) <? n) = true) as -> by lia.
  done.
Qed.

Lemma df_copy_run r f w :
  heap w !! r = Some f ->
  df_copy r w = (Return (length (heap w)), with_new_frame f w).
Proof. intros Hf. unfold df_copy. mstep ltac:(by apply deref_run). done. Qed.

Lemma np_random_choice_run {A} (d : A) (a : list A) size w :
  0 <= size ->
  np_random_choice (d :: a) size w
  = (Return (map (fun q => nth (Z.to_nat (bounded 0 (Z.of_nat (length (d :: a))) q))
                               (d :: a) d)
                 (cells w (Z.to_nat size))),
     advance (Z.to_nat size) w).
Proof.
  intros Hs. unfold np_random_choice.
  mstep ltac:(apply np_random_randint_n_run; [cbn [length]; lia | done]).
  unfold ret. by rewrite map_map.
Qed.

Lemma choice_elem_of {A} (d : A) (a : list A) q :
  nth (Z.to_nat (bounded 0 (Z.of_nat (length (d :: a))) q)) (d :: a) d ∈ d :: a.
Proof.
  apply list_elem_of_In, nth_In.
  pose proof (bounded_range 0 (Z.of_nat (length (d :: a))) q).
  cbn [length] in *. lia.
Qed.

Lemma lookup_new_frame_at f w r :
  r = length (heap w) -> heap (with_new_frame f w) !! r = Some f.
Proof. intros ->. apply lookup_new_frame. Qed.

Lemma get_donation_nudges_too_many r f n w :
  heap w !! r = Some f -> Z.of_nat (length f) < n ->
  get_donation_nudges r n w = (Raise ValueError, w).
Proof.
  intros Hf Hn. unfold get_donation_nudges.
  by erewrite bind_raise by (by eapply df_sample_too_many).
Qed.

Lemma get_donation_nudges_run r f n w :
  heap w !! r = Some f -> 0 <= n <= Z.of_nat (length f) ->
  exists ps rows channels w',
    get_donation_nudges r n w
    = (Return (map nudge_columns
                 (zip_with set_suggested_channel channels
                    (map (fun row => set_suggested_ask
                                       (fround 0 (fmul (avg_donation row) 1.25)) row)
                         rows))), w') /\
    length ps = Z.to_nat n /\ NoDup ps /\
    Forall2 (fun p row => f !! p = Some row) ps rows /\
    length channels = Z.to_nat n /\
    Forall (fun ch => ch ∈ CHANNELS) channels.
Proof.
  intros Hf Hn. unfold get_donation_nudges.
  destruct (df_sample_run r f n w Hf Hn) as (ps & rows & Hrun & Hlen & Hnd & Hrows).
  assert (length rows = Z.to_nat n) as Hlenr.
  { by rewrite <- (Forall2_length _ _ _ Hrows). }
  mstep ltac:(exact Hrun).
  set (w1 := with_new_frame rows _).
  mstep ltac:(by apply df_copy_run, lookup_new_frame_at).
  assert (length (heap w1) = S (length (heap w))) as Hh1.
  { cbn. rewrite length_app. cbn. lia. }
  mstep ltac:(apply df_getitem_run, lookup_new_frame).
  mstep ltac:(apply df_setitem_run;
              [apply lookup_new_frame | by rewrite !length_map]).
  rewrite map_map, zip_with_set_map. rewrite with_frame_new.
  unfold CHANNELS at 1.
  mstep ltac:(apply np_random_choice_run; lia).
  match goal with |- context [df_setitem set_suggested_channel _ ?c] =>
    set (channels := c) end.
  assert (length channels = Z.to_nat n) as Hlenc.
  { unfold channels. by rewrite length_map, length_cells. }
  mstep ltac:(apply df_setitem_run;
              [apply (lookup_new_frame _ (advance _ w1))
              | by rewrite length_map, Hlenc, Hlenr]).
  mstep ltac:(eapply deref_run, lookup_with_frame_eq;
              apply (lookup_new_frame _ (advance _ w1))).
  eexists ps, rows, channels, _. split; [done|].
  repeat split; try done.
  apply Forall_forall. intros ch (q & -> & _)%list_elem_of_fmap.
  apply choice_elem_of.
Qed.

(** ** float64 arithmetic: rounding to the nearest float64 and integer *)

Lemma pow2_pos e : (0 < pow2 e)%Q.
Proof. apply Qpower_0_lt. reflexivity. Qed.

Lemma pow2_add a b : (pow2 (a + b) == pow2 a * pow2 b)%Q.
Proof. apply Qpower_plus. discriminate. Qed.

Lemma pow2_sub a b : (pow2 (a - b) == pow2 a / pow2 b)%Q.
Proof. apply Qpower_minus. discriminate. Qed.

Lemma pow2_le a b : a <= b -> (pow2 a <= pow2 b)%Q.
Proof. intros H. apply Qpower_le_compat_l; [done|discriminate]. Qed.

Lemma pow2_lt a b : a < b -> (pow2 a < pow2 b)%Q.
Proof. intros H. apply Qpower_lt_compat_l; [done|reflexivity]. Qed.

Lemma pow2_lt_inv a b : (pow2 a < pow2 b)%Q -> a < b.
Proof. intros H. eapply Qpower_lt_compat_l_inv; [exact H|reflexivity]. Qed.

Lemma pow2_Z e : 0 <= e -> (pow2 e == inject_Z (2 ^ e))%Q.
Proof. intros H. unfold pow2. by rewrite Zpower_Qpower. Qed.

(** [Qlog2 a] is the exponent of the binade of [a]. *)
Lemma Qlog2_spec a :
  (0 < a)%Q -> (pow2 (Qlog2 a) <= a)%Q /\ (a < pow2 (Qlog2 a + 1))%Q.
Proof.
  intros Ha. destruct a as [n d].
  assert (0 < n) as Hn by (unfold Qlt in Ha; cbn in Ha; lia).
  unfold Qlog2. cbn [Qnum Qden].
  set (ln := Z.log2 n). set (ld := Z.log2 (Z.pos d)).
  destruct (Z.log2_spec n Hn) as [Hn0 Hn1]. fold ln in Hn0, Hn1.
  destruct (Z.log2_spec (Z.pos d) ltac:(lia)) as [Hd0 Hd1]. fold ld in Hd0, Hd1.
  assert (0 <= ln) as Hln by apply Z.log2_nonneg.
  assert (0 <= ld) as Hld by apply Z.log2_nonneg.
  assert (0 < 2 ^ ln) as Hpn by (apply Z.pow_pos_nonneg; lia).
  assert (0 < 2 ^ ld) as Hpd by (apply Z.pow_pos_nonneg; lia).
  assert (pow2 (ln - ld - 1) <= n # d)%Q as Hlow.
  { replace (ln - ld - 1) with (ln - (ld + 1)) by lia.
    rewrite pow2_sub, !pow2_Z by lia.
    unfold Qle, Qdiv, Qmult, Qinv, inject_Z. cbn [Qnum Qden].
    replace (Z.succ ld) with (ld + 1) in * by lia.
    destruct (2 ^ (ld + 1)) as [|p|p] eqn:Hp; try lia.
    cbn [Qnum Qden]. nia. }
  assert (n # d < pow2 (ln - ld + 1))%Q as Hhigh.
  { replace (ln - ld + 1) with (ln + 1 - ld) by lia.
    rewrite pow2_sub, !pow2_Z by lia.
    unfold Qlt, Qdiv, Qmult, Qinv, inject_Z. cbn [Qnum Qden].
    replace (Z.succ ln) with (ln + 1) in * by lia.
    destruct (2 ^ ld) as [|p|p] eqn:Hp; try lia.
    cbn [Qnum Qden]. nia. }
  destruct (Qle_bool (pow2 (ln - ld)) (n # d)) eqn:Hb.
  - apply Qle_bool_iff in Hb. done.
  - split; [done|].
    replace (ln - ld - 1 + 1) with (ln - ld) by lia.
    apply Qnot_le_lt. intros H. apply Qle_bool_iff in H. congruence.
Qed.

Lemma rint_cases q :
  let f := Qfloor q in
  let r := (q - inject_Z f)%Q in
  (0 <= r)%Q /\ (r < 1)%Q /\
  ((r < 1 # 2)%Q /\ rint q = f \/
   (1 # 2 < r)%Q /\ rint q = f + 1 \/
   (r == 1 # 2)%Q /\ Z.even (rint q) = true /\ (rint q = f \/ rint q = f + 1)).
Proof.
  intros f r.
  assert (0 <= r)%Q as H0 by (unfold r, f; pose proof (Qfloor_le q); lra).
  assert (r < 1)%Q as H1.
  { unfold r, f. pose proof (Qlt_floor q) as H.
    rewrite inject_Z_plus in H. change (inject_Z 1) with 1%Q in H. lra. }
  split; [done|]. split; [done|].
  unfold rint. fold f. fold r.
  destruct (r ?= 1 # 2)%Q eqn:Hc.
  - right. right. apply Qeq_alt in Hc. split; [done|].
    destruct (Z.even f) eqn:He; [by split; [|left]|].
    split; [|by right].
    rewrite Z.even_add, He. reflexivity.
  - left. by apply Qlt_alt in Hc.
  - right. left. by apply Qgt_alt in Hc.
Qed.

Lemma rint_nearest_integer q : nearest_integer q (rint q).
Proof.
  destruct (rint_cases q) as (H0 & H1 & Hc). cbv zeta in *.
  set (f := Qfloor q) in *. set (r := (q - inject_Z f)%Q) in *.
  assert (q == inject_Z f + r)%Q as Hq by (unfold r; lra).
  unfold nearest_integer.
  destruct Hc as [[Hr Hf]|[[Hr Hf]|(Hr & He & [Hf|Hf])]]; rewrite Hf in *.
  - rewrite Qabs_Qminus, Qabs_pos by lra. split; [lra|]. intros H. lra.
  - rewrite inject_Z_plus. change (inject_Z 1) with 1%Q.
    rewrite Qabs_pos by lra. split; [lra|]. intros H. lra.
  - rewrite Qabs_Qminus, Qabs_pos by lra. split; [lra|done].
  - rewrite inject_Z_plus. change (inject_Z 1) with 1%Q.
    rewrite Qabs_pos by lra. split; [lra|done].
Qed.

(** No integer is nearer to [q] than [rint q]. *)
Lemma rint_nearest q (z : Z) :
  (Qabs (inject_Z (rint q) - q) <= Qabs (inject_Z z - q))%Q.
Proof.
  destruct (rint_nearest_integer q) as [Hhalf _].
  destruct (rint_cases q) as (H0 & H1 & Hc). cbv zeta in *.
  set (f := Qfloor q) in *. set (r := (q - inject_Z f)%Q) in *.
  assert (q == inject_Z f + r)%Q as Hq by (unfold r; lra).
  destruct (Z.le_gt_cases z f) as [Hz|Hz].
  - (* z <= f *)
    assert (inject_Z z <= inject_Z f)%Q as Hz' by (by rewrite <- Zle_Qle).
    rewrite (Qabs_Qminus (inject_Z z)), (Qabs_pos (q - inject_Z z)) by lra.
    destruct Hc as [[Hr Hf]|[[Hr Hf]|(Hr & He & [Hf|Hf])]]; rewrite Hf;
      rewrite ?inject_Z_plus; change (inject_Z 1) with 1%Q.
    + rewrite Qabs_Qminus, Qabs_pos by lra. lra.
    + rewrite Qabs_pos by lra. lra.
    + rewrite Qabs_Qminus, Qabs_pos by lra. lra.
    + rewrite Qabs_pos by lra. lra.
  - (* f + 1 <= z *)
    assert (inject_Z f + 1 <= inject_Z z)%Q as Hz'.
    { change 1%Q with (inject_Z 1). rewrite <- inject_Z_plus, <- Zle_Qle. lia. }
    rewrite (Qabs_pos (inject_Z z - q)) by lra.
    destruct Hc as [[Hr Hf]|[[Hr Hf]|(Hr & He & [Hf|Hf])]]; rewrite Hf;
      rewrite ?inject_Z_plus; change (inject_Z 1) with 1%Q.
    + rewrite Qabs_Qminus, Qabs_pos by lra. lra.
    + rewrite Qabs_pos by lra. lra.
    + rewrite Qabs_Qminus, Qabs_pos by lra. lra.
    + rewrite Qabs_pos by lra. lra.
Qed.

(** [nearest_integer] names one integer. *)
Lemma nearest_integer_unique q z z' :
  nearest_integer q z -> nearest_integer q z' -> z = z'.
Proof.
  intros [Hz Ez] [Hz' Ez'].
  apply Qabs_Qle_condition in Hz as Hz1. apply Qabs_Qle_condition in Hz' as Hz1'.
  assert (inject_Z z - inject_Z z' <= 1)%Q as H1 by lra.
  assert (inject_Z z' - inject_Z z <= 1)%Q as H2 by lra.
  change 1%Q with (inject_Z 1) in H1, H2. unfold Qminus in H1, H2.
  rewrite <- !inject_Z_opp, <- !inject_Z_plus, <- Zle_Qle in H1, H2.
  assert (z' = z \/ z' = z + 1 \/ z = z' + 1) as [->|[->| ->]] by lia; [done| |].
  - (* q is half way between z and z + 1 *)
    rewrite inject_Z_plus in *. change (inject_Z 1) with 1%Q in *.
    assert (q == inject_Z z + (1 # 2))%Q as Hq by lra.
    assert (Z.even z = true) as He.
    { apply Ez. rewrite Hq.
      assert ((inject_Z z - (inject_Z z + (1 # 2)))%Q == (- (1 # 2))%Q)%Q as -> by ring.
      reflexivity. }
    assert (Z.even (z + 1) = true) as He'.
    { apply Ez'. rewrite Hq.
      assert ((inject_Z z + 1 - (inject_Z z + (1 # 2)))%Q == (1 # 2)%Q)%Q as -> by ring.
      reflexivity. }
    rewrite Z.even_add, He in He'. discriminate.
  - rewrite inject_Z_plus in *. change (inject_Z 1) with 1%Q in *.
    assert (q == inject_Z z' + (1 # 2))%Q as Hq by lra.
    assert (Z.even z' = true) as He.
    { apply Ez'. rewrite Hq.
      assert ((inject_Z z' - (inject_Z z' + (1 # 2)))%Q == (- (1 # 2))%Q)%Q as -> by ring.
      reflexivity. }
    assert (Z.even (z' + 1) = true) as He'.
    { apply Ez. rewrite Hq.
      assert ((inject_Z z' + 1 - (inject_Z z' + (1 # 2)))%Q == (1 # 2)%Q)%Q as -> by ring.
      reflexivity. }
    rewrite Z.even_add, He in He'. discriminate.
Qed.

Lemma binary64_0 : binary64 0.
Proof. exists 0, 0. split; [done|]. split; [lia|]. reflexivity. Qed.

Lemma scaled_distance (q P t y u : Q) :
  (0 < P)%Q -> (q == t * P)%Q -> (y == u * P)%Q ->
  (Qabs (y - q) == Qabs (u - t) * P)%Q.
Proof.
  intros HP Hq Hy.
  assert (y - q == (u - t) * P)%Q as -> by (rewrite Hy, Hq; ring).
  by rewrite Qabs_Qmult, (Qabs_pos P) by lra.
Qed.

(** Between two integers at the same distance from [t], [rint t] is the
    even one and the other is its neighbour. *)
Lemma rint_tie t (z : Z) :
  (Qabs (inject_Z z - t) == Qabs (inject_Z (rint t) - t))%Q -> z <> rint t ->
  Z.even (rint t) = true /\ (z = rint t + 1 \/ z = rint t - 1).
Proof.
  intros Heq Hne. destruct (rint_nearest_integer t) as [Hhalf Heven].
  set (m := rint t) in *.
  assert (Qabs (inject_Z z - t) <= 1 # 2)%Q as Hz by (rewrite Heq; exact Hhalf).
  apply Qabs_Qle_condition in Hz as Hz1. apply Qabs_Qle_condition in Hhalf as Hm1.
  assert (inject_Z z - inject_Z m <= 1)%Q as H1 by lra.
  assert (inject_Z m - inject_Z z <= 1)%Q as H2 by lra.
  change 1%Q with (inject_Z 1) in H1, H2. unfold Qminus in H1, H2.
  rewrite <- !inject_Z_opp, <- !inject_Z_plus, <- Zle_Qle in H1, H2.
  assert (z = m + 1 \/ z = m - 1) as Hcase by lia.
  split; [|exact Hcase]. apply Heven.
  destruct Hcase as [-> | ->].
  - rewrite inject_Z_plus in *. change (inject_Z 1) with 1%Q in *.
    destruct (Qlt_le_dec (inject_Z m - t) 0) as [Hs|Hs].
    + rewrite (Qabs_neg (inject_Z m - t)) in * by lra.
      destruct (Qlt_le_dec (inject_Z m + 1 - t) 0) as [Hs'|Hs'].
      * rewrite (Qabs_neg (inject_Z m + 1 - t)) in Heq by lra. lra.
      * rewrite (Qabs_pos (inject_Z m + 1 - t)) in Heq by lra. lra.
    + rewrite (Qabs_pos (inject_Z m - t)) in * by lra.
      rewrite (Qabs_pos (inject_Z m + 1 - t)) in Heq by lra. lra.
  - unfold Z.sub in *. rewrite inject_Z_plus, inject_Z_opp in *.
    change (inject_Z 1) with 1%Q in *.
    destruct (Qlt_le_dec 0 (inject_Z m - t)) as [Hs|Hs].
    + rewrite (Qabs_pos (inject_Z m - t)) in * by lra.
      destruct (Qlt_le_dec 0 (inject_Z m + - (1) - t)) as [Hs'|Hs'].
      * rewrite (Qabs_pos (inject_Z m + - (1) - t)) in Heq by lra. lra.
      * rewrite (Qabs_neg (inject_Z m + - (1) - t)) in Heq by lra. lra.
    + rewrite (Qabs_neg (inject_Z m - t)) in * by lra.
      rewrite (Qabs_neg (inject_Z m + - (1) - t)) in Heq by lra. lra.
Qed.

(** Below the overflow range, [np_float64] gives the float64 nearest to the
    exact value, ties to the even significand. *)
Lemma np_float64_nearest q :
  (Qabs q < pow2 1023)%Q ->
  exists x, np_float64 q = Fin x /\ nearest_float64 q x.
Proof.
  intros Hq. unfold np_float64.
  destruct (Qeq_bool q 0) eqn:H0.
  { apply Qeq_bool_iff in H0. exists 0%Q. split; [done|].
    split; [apply binary64_0|]. intros y _.
    assert (0 - q == 0)%Q as -> by (rewrite H0; ring).
    assert (y - q == y)%Q as -> by (rewrite H0; ring).
    change (Qabs 0) with 0%Q. split; [apply Qabs_nonneg|].
    intros Hy Hne. exfalso. apply Hne.
    pose proof (Qabs_Qle_condition y 0) as [Hc _].
    destruct Hc as [Hc1 Hc2]; [rewrite Hy; lra|]. lra. }
  assert (~ q == 0)%Q as Hq0 by (intros H; apply Qeq_bool_iff in H; congruence).
  set (a := Qabs q).
  assert (0 < a)%Q as Ha.
  { unfold a. apply Qabs_case; intros H.
    - destruct (Qle_lt_or_eq _ _ H) as [|He]; [done|]. by symmetry in He.
    - destruct (Qle_lt_or_eq _ _ H) as [|He]; [lra|]. done. }
  destruct (Qlog2_spec a Ha) as [Hl0 Hl1].
  set (l := Qlog2 a) in *.
  assert (l < 1023) as Hl by (apply pow2_lt_inv; fold a in Hq; lra).
  set (e := Z.max (l - 52) (-1074)).
  assert (-1074 <= e <= 970) as He by lia.
  set (P := pow2 e). assert (0 < P)%Q as HP by apply pow2_pos.
  set (t := (q / P)%Q).
  assert (q == t * P)%Q as Hqt by (unfold t; field; lra).
  assert (a == Qabs t * P)%Q as Hat.
  { unfold a. rewrite Hqt, Qabs_Qmult, (Qabs_pos P) by lra. reflexivity. }
  assert (Qabs t < pow2 53)%Q as Ht.
  { apply (Qmult_lt_r _ _ P HP). rewrite <- Hat.
    eapply Qlt_le_trans; [exact Hl1|].
    unfold P. rewrite <- pow2_add. apply pow2_le. lia. }
  set (m := rint t).
  destruct (rint_nearest_integer t) as [Hm _]. fold m in Hm.
  assert (Z.abs m <= 2 ^ 53) as Hm53.
  { rewrite pow2_Z in Ht by lia.
    apply Qabs_Qle_condition in Hm. apply Qabs_Qlt_condition in Ht.
    assert (inject_Z m < inject_Z (2 ^ 53 + 1))%Q as H1.
    { rewrite inject_Z_plus. change (inject_Z 1) with 1%Q. lra. }
    assert (inject_Z (- (2 ^ 53 + 1)) < inject_Z m)%Q as H2.
    { rewrite inject_Z_opp, inject_Z_plus. change (inject_Z 1) with 1%Q. lra. }
    rewrite <- Zlt_Qlt in H1, H2. lia. }
  assert (Qle_bool (pow2 1024) (inject_Z (Z.abs m) * P) = false) as ->.
  { destruct (Qle_bool _ _) eqn:Hb; [|done]. apply Qle_bool_iff in Hb.
    assert (inject_Z (Z.abs m) * P <= pow2 1023)%Q as Hle.
    { replace 1023 with (53 + 970) by lia. rewrite pow2_add.
      rewrite (pow2_Z 53) by lia.
      apply (Qle_trans _ (inject_Z (2 ^ 53) * P)%Q).
      - apply Qmult_le_compat_r; [by rewrite <- Zle_Qle|lra].
      - apply Qmult_le_l; [reflexivity|]. apply pow2_le. lia. }
    pose proof (pow2_lt 1023 1024 ltac:(lia)). lra. }
  eexists. split; [reflexivity|].
  assert (Qred (inject_Z m * P) == inject_Z m * P)%Q as Hx by apply Qred_correct.
  split.
  - (* the result is a float64 *)
    destruct (Z.eq_dec (Z.abs m) (2 ^ 53)) as [Hmax|Hmax].
    + exists (m / 2), (e + 1). split; [|split; [lia|]].
      * assert (m = 2 ^ 53 \/ m = - 2 ^ 53) as [-> | ->] by lia; done.
      * rewrite Hx, pow2_add. unfold P.
        assert (m = 2 ^ 53 \/ m = - 2 ^ 53) as [-> | ->] by lia.
        -- change (2 ^ 53 / 2) with (2 ^ 52). change (pow2 1) with 2%Q.
           change (inject_Z (2 ^ 53)) with (inject_Z (2 ^ 52) * 2)%Q. ring.
        -- change (- 2 ^ 53 / 2) with (- 2 ^ 52). change (pow2 1) with 2%Q.
           change (inject_Z (- 2 ^ 53)) with (inject_Z (- 2 ^ 52) * 2)%Q. ring.
    + exists m, e. split; [lia|]. split; [lia|]. exact Hx.
  - (* no float64 is nearer, and a tie goes to the even significand *)
    intros y (m' & e' & Hm' & He' & Hy).
    set (u := (y / P)%Q).
    assert (y == u * P)%Q as Hyu by (unfold u; field; lra).
    rewrite (scaled_distance q P t y u HP Hqt Hyu).
    rewrite (scaled_distance q P t _ (inject_Z m) HP Hqt Hx).
    assert ((Qabs (inject_Z m - t) <= Qabs (u - t))%Q /\
            ((Qabs (u - t) == Qabs (inject_Z m - t))%Q -> ~ (u == inject_Z m)%Q ->
             exists k : Z, m = 2 * k /\
               ((u - inject_Z m == 1)%Q \/ (u - inject_Z m == - (1))%Q)))
      as [Hnear Htie].
    { destruct (Z.le_gt_cases e e') as [Hee|Hee].
      + (* y is a multiple of the spacing *)
        assert (u == inject_Z (m' * 2 ^ (e' - e)))%Q as Hu.
        { unfold u. rewrite Hy, inject_Z_mult, <- pow2_Z by lia.
          rewrite pow2_sub. fold P. field. lra. }
        rewrite Hu. split; [apply rint_nearest|].
        intros Heq Hne.
        destruct (rint_tie t (m' * 2 ^ (e' - e)) Heq) as [Hev Hcase].
        { intros Hz. apply Hne. fold m in Hz. by rewrite Hz. }
        fold m in Hev, Hcase.
        apply Z.even_spec in Hev as [k Hk]. exists k. split; [exact Hk|].
        destruct Hcase as [Hc|Hc]; [left|right]; rewrite Hu, Hc.
        -- rewrite inject_Z_plus. change (inject_Z 1) with 1%Q. ring.
        -- unfold Z.sub. rewrite inject_Z_plus, inject_Z_opp.
           change (inject_Z 1) with 1%Q. ring.
      + (* y is below the binade of q: strictly farther *)
        assert (e = l - 52) as Hel by lia.
        assert (pow2 52 <= Qabs t)%Q as Ht52.
        { apply (Qmult_le_r _ _ P HP). rewrite <- Hat.
          unfold P. rewrite <- pow2_add. replace (52 + e) with l by lia. done. }
        assert (Qabs u < pow2 52)%Q as Hu.
        { unfold u. rewrite Hy.
          assert (inject_Z m' * pow2 e' / P == inject_Z m' * pow2 (e' - e))%Q as ->.
          { rewrite pow2_sub. fold P. field. lra. }
          rewrite Qabs_Qmult, (Qabs_pos (pow2 _))
            by (pose proof (pow2_pos (e' - e)); lra).
          assert (Qabs (inject_Z m') < pow2 53)%Q as Hm'q.
          { rewrite pow2_Z by lia. apply Qabs_Qlt_condition.
            rewrite <- inject_Z_opp, <- !Zlt_Qlt. lia. }
          apply (Qle_lt_trans _ (Qabs (inject_Z m') * pow2 (-1))%Q).
          - rewrite !(Qmult_comm (Qabs (inject_Z m'))).
            apply Qmult_le_compat_r; [apply pow2_le; lia|apply Qabs_nonneg].
          - replace 52 with (53 + -1) by lia. rewrite (pow2_add 53 (-1)).
            apply Qmult_lt_compat_r; [apply pow2_pos|done]. }
        assert (Qabs (inject_Z m - t) < Qabs (u - t))%Q as Hstrict.
        { destruct (Qlt_le_dec t 0) as [Hneg|Hpos].
          * rewrite (Qabs_neg t) in Ht52 by lra.
            apply Qabs_Qlt_condition in Hu.
            apply (Qle_lt_trans _ (Qabs (inject_Z (- 2 ^ 52) - t)));
              [apply rint_nearest|].
            rewrite pow2_Z in Ht52, Hu by lia.
            rewrite inject_Z_opp.
            rewrite Qabs_pos by lra.
            apply (Qlt_le_trans _ (u - t)%Q); [lra|apply Qle_Qabs].
          * rewrite (Qabs_pos t) in Ht52 by lra.
            apply Qabs_Qlt_condition in Hu.
            apply (Qle_lt_trans _ (Qabs (inject_Z (2 ^ 52) - t)));
              [apply rint_nearest|].
            rewrite pow2_Z in Ht52, Hu by lia.
            rewrite Qabs_neg by lra.
            rewrite (Qabs_Qminus u t).
            apply (Qlt_le_trans _ (t - u)%Q); [lra|apply Qle_Qabs]. }
        split; [lra|]. intros Heq. lra. }
    split.
    + apply Qmult_le_compat_r; [exact Hnear|lra].
    + intros Heq Hne.
      destruct Htie as (k & Hk & Hcase).
      * apply (Qmult_inj_r _ _ P); [lra|exact Heq].
      * intros Hu. apply Hne. rewrite Hyu, Hx, Hu. reflexivity.
      * destruct Hcase as [Hc|Hc].
        -- exists k. rewrite Hx, Hyu.
           assert (u * P - inject_Z m * P == (u - inject_Z m) * P)%Q as -> by ring.
           rewrite Hc, Hk. ring.
        -- exists (- k). rewrite Hx, Hyu.
           assert (u * P - inject_Z m * P == (u - inject_Z m) * P)%Q as -> by ring.
           rewrite Hc, Hk.
           replace (2 * - k) with (- (2 * k)) by lia. rewrite inject_Z_opp. ring.
Qed.

Lemma rint_proper q q' : (q == q')%Q -> rint q = rint q'.
Proof.
  intros H. unfold rint. rewrite (Qfloor_comp _ _ H).
  assert (q - inject_Z (Qfloor q') == q' - inject_Z (Qfloor q'))%Q as Hr.
  { apply Qplus_comp; [exact H|reflexivity]. }
  by rewrite (Qcompare_comp _ _ Hr _ _ (Qeq_refl _)).
Qed.

Lemma binary64_bound (B q x : Q) :
  binary64 B -> binary64 (- B) -> (Qabs q <= B)%Q -> nearest_float64 q x ->
  (Qabs x <= B)%Q.
Proof.
  intros HB HB' Hq [_ Hx]. apply Qabs_Qle_condition in Hq.
  apply Qabs_Qle_condition. split.
  - pose proof (proj1 (Hx _ HB')) as H.
    rewrite (Qabs_neg (- B - q)) in H by lra.
    pose proof (Qle_Qabs (- (x - q))) as H'. rewrite Qabs_opp in H'. lra.
  - pose proof (proj1 (Hx _ HB)) as H.
    rewrite (Qabs_pos (B - q)) in H by lra.
    pose proof (Qle_Qabs (x - q)). lra.
Qed.

Lemma nearest_float64_fixed x x' :
  binary64 x -> nearest_float64 x x' -> (x' == x)%Q.
Proof.
  intros Hb [_ Hx]. pose proof (proj1 (Hx x Hb)) as H.
  assert (x - x == 0)%Q as H0 by ring. rewrite H0 in H.
  change (Qabs 0) with 0%Q in H.
  pose proof (Qabs_nonneg (x' - x)) as Hn.
  assert (Qabs (x' - x) == 0)%Q as Ha by lra.
  apply Qabs_Qle_condition in H. lra.
Qed.

Lemma binary64_pow2_1022 : binary64 (pow2 1022) /\ binary64 (- pow2 1022).
Proof.
  split.
  - exists (2 ^ 51), 971. split; [reflexivity|]. split; [lia|].
    rewrite <- (pow2_Z 51) by lia. rewrite <- pow2_add. reflexivity.
  - exists (- 2 ^ 51), 971. split; [reflexivity|]. split; [lia|].
    rewrite inject_Z_opp, <- (pow2_Z 51) by lia.
    assert (- pow2 51 * pow2 971 == - (pow2 51 * pow2 971))%Q as -> by ring.
    rewrite <- pow2_add. reflexivity.
Qed.

Lemma binary64_5_pow2_1020 :
  binary64 (5 * pow2 1020) /\ binary64 (- (5 * pow2 1020)).
Proof.
  split.
  - exists (5 * 2 ^ 49), 971. split; [reflexivity|]. split; [lia|].
    rewrite inject_Z_mult, <- (pow2_Z 49) by lia.
    replace 1020 with (49 + 971) by lia. rewrite pow2_add.
    change (inject_Z 5) with 5%Q. ring.
  - exists (- (5 * 2 ^ 49)), 971. split; [reflexivity|]. split; [lia|].
    rewrite inject_Z_opp, inject_Z_mult, <- (pow2_Z 49) by lia.
    replace 1020 with (49 + 971) by lia. rewrite pow2_add.
    change (inject_Z 5) with 5%Q. ring.
Qed.

Lemma nearest_float64_proper q q' x :
  (q == q')%Q -> nearest_float64 q x -> nearest_float64 q' x.
Proof.
  intros Hq [Hb Hx]. split; [exact Hb|]. intros y Hy.
  destruct (Hx y Hy) as [Hle Htie].
  assert (x - q' == x - q)%Q as -> by (rewrite Hq; ring).
  assert (y - q' == y - q)%Q as -> by (rewrite Hq; ring).
  done.
Qed.

(** [nearest_float64] names one float64. *)
Lemma nearest_float64_unique q x x' :
  nearest_float64 q x -> nearest_float64 q x' -> (x == x')%Q.
Proof.
  intros [Hb Hx] [Hb' Hx'].
  destruct (Qeq_dec x x') as [|Hne]; [done|]. exfalso.
  destruct (Hx x' Hb') as [Hle Htie]. destruct (Hx' x Hb) as [Hle' Htie'].
  assert (Qabs (x' - q) == Qabs (x - q))%Q as Heq by lra.
  destruct (Htie Heq) as [k Hk]; [by intros H; apply Hne|].
  destruct (Htie' (Qeq_sym _ _ Heq) Hne) as [k' Hk'].
  rewrite !inject_Z_mult in Hk, Hk'. change (inject_Z 2) with 2%Q in Hk, Hk'.
  assert (inject_Z (1 + 2 * (k + k')) * (x' - x) == 0)%Q as H0.
  { rewrite inject_Z_plus, inject_Z_mult, inject_Z_plus.
    change (inject_Z 1) with 1%Q. change (inject_Z 2) with 2%Q. lra. }
  apply Qmult_integral in H0 as [H0|H0].
  - change 0%Q with (inject_Z 0) in H0. apply (proj1 (inject_Z_injective _ _)) in H0. lia.
  - apply Hne. lra.
Qed.

Lemma nearest_integer_proper q q' z :
  (q == q')%Q -> nearest_integer q z -> nearest_integer q' z.
Proof.
  intros Hq [H1 H2].
  assert (inject_Z z - q' == inject_Z z - q)%Q as Hd by (rewrite Hq; ring).
  split; [by rewrite Hd|]. intros H. apply H2. by rewrite <- Hd.
Qed.

(** [rounded_ask] names one ask. *)
Lemma rounded_ask_functional avg ask ask' :
  match avg with Fin a => (Qabs a <= pow2 1022)%Q | _ => True end ->
  rounded_ask avg ask -> rounded_ask avg ask' -> ask = ask'.
Proof.
  destruct avg as [a|s|]; cbn [rounded_ask]; [|congruence..].
  intros Ha H H'.
  destruct (H Ha) as (x & p & z & Hx & Hp & Hz & ->).
  destruct (H' Ha) as (x' & p' & z' & Hx' & Hp' & Hz' & ->).
  pose proof (nearest_float64_unique _ _ _ Hx Hx') as Hxx.
  assert (x * 1.25 == x' * 1.25)%Q as Hprod by (by rewrite Hxx).
  pose proof (nearest_float64_unique _ _ _
                (nearest_float64_proper _ _ _ Hprod Hp) Hp') as Hpp.
  by rewrite (nearest_integer_unique _ _ _
                (nearest_integer_proper _ _ _ Hpp Hz) Hz').
Qed.

(** Line 61 on one value. *)
Lemma fround_fmul_rounded_ask avg :
  rounded_ask avg (fround 0 (fmul avg 1.25)).
Proof.
  destruct avg as [a|s|]; [|reflexivity..].
  cbn [rounded_ask]. intros Ha.
  assert (pow2 1022 < pow2 1023)%Q as H1 by (apply pow2_lt; lia).
  destruct (np_float64_nearest a ltac:(lra)) as (x & Hx & Hnx).
  pose proof (binary64_bound _ _ _ (proj1 binary64_pow2_1022)
                (proj2 binary64_pow2_1022) Ha Hnx) as Hxb.
  assert (5 * pow2 1020 < pow2 1023)%Q as H2.
  { replace 1023 with (3 + 1020) by lia. rewrite pow2_add.
    change (pow2 3) with 8%Q. pose proof (pow2_pos 1020). lra. }
  assert (Qabs (x * 1.25) <= 5 * pow2 1020)%Q as Hprod.
  { rewrite Qabs_Qmult. change (Qabs 1.25) with 1.25%Q.
    replace 1022 with (2 + 1020) in Hxb by lia. rewrite pow2_add in Hxb.
    change (pow2 2) with 4%Q in Hxb. lra. }
  destruct (np_float64_nearest (x * 1.25) ltac:(lra)) as (p & Hp & Hnp).
  pose proof (binary64_bound _ _ _ (proj1 binary64_5_pow2_1020)
                (proj2 binary64_5_pow2_1020) Hprod Hnp) as Hpb.
  destruct (np_float64_nearest p ltac:(lra)) as (p' & Hp' & Hnp').
  pose proof (nearest_float64_fixed _ _ (proj1 Hnp) Hnp') as Hpp.
  exists x, p, (rint p). split; [done|]. split; [done|].
  split; [apply rint_nearest_integer|].
  unfold fround, fmul, as_float64. rewrite Hx, Hp. cbn [as_float64].
  rewrite Hp'. by rewrite (rint_proper _ _ Hpp).
Qed.

(** ** Claim on get_donation_nudges *)

(** C6: on a donor table [f], a count above the population size raises a
    ValueError; a count between 0 and the population size returns exactly
    that many rows, taken at pairwise distinct positions [ps] of the table
    (no donor twice), each with the donor's name and avg_donation, a
    suggested_ask that is round(avg_donation * 1.25) in float64 arithmetic
    ([rounded_ask]: the float64 product, rounded to the nearest integer with
    ties to even) and a channel among "Email", "Targeted Ad", "SMS". *)
Theorem nudges_sample_distinct (w : World) (donors_df : ref) (f : Frame) (n : Z) :
  heap w !! donors_df = Some f ->
  (Z.of_nat (length f) < n ->
   get_donation_nudges donors_df n w = (Raise ValueError, w)) /\
  (0 <= n <= Z.of_nat (length f) ->
   exists result w' ps,
     get_donation_nudges donors_df n w = (Return result, w') /\
     length result = Z.to_nat n /\
     NoDup ps /\
     Forall2 (fun p row =>
                exists r ch,
                  f !! p = Some r /\
                  nr_index row = index r /\
                  nr_name row = name r /\
                  nr_avg_donation row = avg_donation r /\
                  rounded_ask (avg_donation r) (nr_suggested_ask row) /\
                  nr_suggested_channel row = Some ch /\
                  ch ∈ ["Email"; "Targeted Ad"; "SMS"]%string)
             ps result).
Proof.
  intros Hf. split; intros Hn.
  - by eapply get_donation_nudges_too_many.
  - destruct (get_donation_nudges_run _ _ _ _ Hf Hn)
      as (ps & rows & channels & w' & Hrun & Hlen & Hnd & Hrows & Hlenc & Hch).
    pose proof (Forall2_length _ _ _ Hrows) as Hlenr.
    eexists _, w', ps. split; [exact Hrun|].
    split; [rewrite length_map, length_zip_with, length_map; lia|].
    split; [done|].
    apply Forall2_same_length_lookup_2.
    { rewrite length_map, length_zip_with, length_map. lia. }
    intros i p row Hp Hrow.
    rewrite list_lookup_fmap, lookup_zip_with, list_lookup_fmap in Hrow.
    destruct (channels !! i) as [ch|] eqn:Hchi; [|done].
    destruct (rows !! i) as [r|] eqn:Hri; [|done].
    cbn in Hrow. injection Hrow as <-.
    exists r, ch. split; [exact (Forall2_lookup_lr _ _ _ _ _ _ Hrows Hp Hri)|].
    cbn [nr_index nr_name nr_avg_donation nr_suggested_ask nr_suggested_channel
         nudge_columns index name avg_donation suggested_ask suggested_channel
         set_suggested_channel set_suggested_ask].
    split; [done|]. split; [done|]. split; [done|].
    split; [apply fround_fmul_rounded_ask|]. split; [done|].
    eapply (proj1 (Forall_forall _ _) Hch), list_elem_of_lookup_2. exact Hchi.
Qed.

Lemma nudges_sample_distinct_example :
  heap champion_world !! 0%nat = Some [champion_row] /\
  get_donation_nudges 0%nat 2 champion_world = (Raise ValueError, champion_world) /\
  exists result w' ps,
    get_donation_nudges 0%nat 1 champion_world = (Return result, w') /\
    length result = Z.to_nat 1 /\
    NoDup ps /\
    Forall2 (fun p row =>
               exists r ch,
                 [champion_row] !! p = Some r /\
                 nr_index row = index r /\
                 nr_name row = name r /\
                 nr_avg_donation row = avg_donation r /\
                 rounded_ask (avg_donation r) (nr_suggested_ask row) /\
                 nr_suggested_channel row = Some ch /\
                 ch ∈ ["Email"; "Targeted Ad"; "SMS"]%string)
            ps result.
Proof.
  split; [reflexivity|]. split.
  - apply (proj1 (nudges_sample_distinct champion_world 0%nat [champion_row] 2
                    eq_refl)).
    cbn. lia.
  - apply (proj2 (nudges_sample_distinct champion_world 0%nat [champion_row] 1
                    eq_refl)).
    cbn. lia.
Defined.

(** ** The body of get_live_donations_data, with line 29 as it is meant *)

Lemma np_random_choice_p_run {A} (d : A) (a : list A) size p w :
  valid_p (length (d :: a)) p = true -> 0 <= size ->
  np_random_choice_p (d :: a) size p w
  = (Return (map (fun q => nth (searchsorted_right
                                  (map (fun c => c / sum_Q p)%Q (cumsum 0%Q p))
                                  (unit_interval q))
                               (d :: a) d)
                 (cells w (Z.to_nat size))),
     advance (Z.to_nat size) w).
Proof.
  intros Hp Hs. unfold np_random_choice_p. rewrite Hp.
  assert ((size <? 0) = false) as -> by lia.
  mstep ltac:(apply random_raw_n_run). done.
Qed.

Lemma pd_date_range_run start periods w :
  0 <= periods ->
  pd_date_range start periods w
  = (Return (map (fun i => 24 * start + i) (range 0 periods)), w).
Proof.
  intros Hp. unfold pd_date_range.
  by assert ((periods <? 0) = false) as -> by lia.
Qed.

Lemma get_live_donations_data_meant_run donors_df r0 f n w :
  heap w !! donors_df = Some (r0 :: f) -> 0 <= n ->
  get_live_donations_data_meant donors_df n w
  = (Return (merge_left
               (drawn_events w (map donor_id (r0 :: f)) (donor_id r0) (Z.to_nat n))
               (r0 :: f)),
     advance (3 * Z.to_nat n) w).
Proof.
  intros Hf Hn. set (N := Z.to_nat n). unfold get_live_donations_data_meant.
  mstep ltac:(by apply df_getitem_run).
  cbn [map].
  mstep ltac:(by apply np_random_choice_run).
  mstep ltac:(reflexivity).
  mstep ltac:(by apply pd_date_range_run).
  mstep ltac:(by apply np_random_lognormal_run).
  unfold CAMPAIGNS at 1.
  mstep ltac:(by apply np_random_choice_p_run).
  fold N. rewrite !advance_advance.
  unfold pd_DataFrame_events.
  rewrite !length_map, !length_cells, length_range.
  replace (Z.to_nat (n - 0)) with N by lia.
  rewrite Nat.eqb_refl. cbn [andb].
  mstep ltac:(reflexivity).
  mstep ltac:(by apply deref_run).
  unfold ret. replace (N + N + N)%nat with (3 * N)%nat by lia.
  do 3 f_equal. apply list_eq. intros i.
  unfold drawn_events.
  rewrite lookup_zip_with, !lookup_zip_with, !list_lookup_fmap.
  destruct (decide (i < N)%nat) as [Hi|Hi].
  - rewrite lookup_seq_lt, lookup_range, !lookup_cells by lia.
    cbn. rewrite Z.add_0_l. done.
  - rewrite lookup_seq_ge by lia. unfold range.
    rewrite list_lookup_fmap, lookup_seq_ge by lia. done.
Qed.

Lemma filter_key_absent (f : Frame) k :
  k ∉ map donor_id f ->
  List.filter (fun r => bool_decide (donor_id r = k)) f = [].
Proof.
  induction f as [|r f IH]; [done|]. cbn. intros Hk.
  apply not_elem_of_cons in Hk as [Hne Hk].
  rewrite bool_decide_eq_false_2 by done. by apply IH.
Qed.

Lemma filter_key_unique (f : Frame) k :
  NoDup (map donor_id f) -> k ∈ map donor_id f ->
  exists r, List.filter (fun r => bool_decide (donor_id r = k)) f = [r] /\
            r ∈ f /\ donor_id r = k.
Proof.
  induction f as [|r f IH]; cbn; intros Hnd Hk.
  - by apply elem_of_nil in Hk.
  - apply NoDup_cons in Hnd as [Hr Hnd].
    destruct (decide (donor_id r = k)) as [Heq|Hne].
    + rewrite bool_decide_eq_true_2 by done. subst k.
      rewrite filter_key_absent by done. exists r. repeat split. by left.
    + rewrite bool_decide_eq_false_2 by done.
      apply elem_of_cons in Hk as [?|Hk]; [done|].
      destruct (IH Hnd Hk) as (r' & Hfil & Hin & Hkey).
      exists r'. repeat split; try done. by right.
Qed.

Lemma merge_left_matched events (f : Frame) :
  NoDup (map donor_id f) ->
  Forall (fun e => ev_donor_id e ∈ map donor_id f) events ->
  Forall2 (fun e e' =>
             ev_timestamp e' = ev_timestamp e /\ ev_amount e' = ev_amount e /\
             ev_campaign e' = ev_campaign e /\ ev_donor_id e' = ev_donor_id e /\
             exists r, r ∈ f /\ donor_id r = ev_donor_id e /\ ev_name e' = name r)
          events (merge_left events f).
Proof.
  intros Hnd. induction 1 as [|e events He Hall IH]; [constructor|].
  unfold merge_left in *. cbn [flat_map].
  destruct (filter_key_unique f (ev_donor_id e) Hnd He) as (r & -> & Hin & Hkey).
  cbn [map app]. constructor; [|done].
  cbn. repeat split. by exists r.
Qed.




(** With the opening bracket of line 29 in place, the body does what C5
    says: on a non-empty donor table with unique donor ids and for a
    positive count [n] it returns exactly [n] events; every event's donor_id
    is the id of a row of the table (whose name the event carries); and the
    timestamps are today's midnight plus 0, 1, ..., n-1 hours. *)
Lemma donation_stream_integrity_meant (w : World) (donors_df : ref) (f : Frame) (n : Z) :
  heap w !! donors_df = Some f -> f <> [] -> NoDup (map donor_id f) -> 0 < n ->
  exists events w',
    get_live_donations_data_meant donors_df n w = (Return events, w') /\
    length events = Z.to_nat n /\
    Forall (fun e => exists r, r ∈ f /\ donor_id r = ev_donor_id e /\
                               ev_name e = name r) events /\
    map ev_timestamp events
      = map (fun i => 24 * today w + Z.of_nat i) (seq 0 (Z.to_nat n)) /\
    (forall i j ti tj,
        map ev_timestamp events !! i = Some ti ->
        map ev_timestamp events !! j = Some tj ->
        (i < j)%nat -> ti < tj).
Proof.
  intros Hf Hne Hnd Hn. destruct f as [|r0 f]; [done|].
  set (N := Z.to_nat n).
  set (drawn := drawn_events w (map donor_id (r0 :: f)) (donor_id r0) N).
  eexists _, _. rewrite (get_live_donations_data_meant_run _ _ _ _ _ Hf) by lia.
  fold N drawn. split; [done|].
  assert (Forall (fun e => ev_donor_id e ∈ map donor_id (r0 :: f)) drawn) as Hids.
  { apply Forall_forall. intros e (i & -> & _)%list_elem_of_fmap.
    cbn [ev_donor_id]. apply choice_elem_of. }
  pose proof (merge_left_matched drawn (r0 :: f) Hnd Hids) as Hm.
  assert (length drawn = N) as Hlen
    by (unfold drawn, drawn_events; by rewrite length_map, length_seq).
  assert (map ev_timestamp (merge_left drawn (r0 :: f))
          = map (fun i => 24 * today w + Z.of_nat i) (seq 0 N)) as Hts.
  { transitivity (map ev_timestamp drawn).
    - clear -Hm. induction Hm as [|e e' es es' (? & _) _ IH]; [done|].
      cbn [map]. by f_equal.
    - unfold drawn, drawn_events. by rewrite map_map. }
  split; [by rewrite <- (Forall2_length _ _ _ Hm)|].
  split.
  { clear -Hm. induction Hm as [|e e' es es' (_ & _ & _ & Hid & r & ? & ? & ?) _ IH];
      constructor; [|done].
    exists r. by rewrite Hid. }
  split; [done|].
  rewrite Hts. intros i j ti tj Hi Hj Hij.
  rewrite list_lookup_fmap in Hi, Hj.
  destruct (seq 0 N !! i) as [i'|] eqn:Hi'; [|done].
  destruct (seq 0 N !! j) as [j'|] eqn:Hj'; [|done].
  apply lookup_seq in Hi' as [-> _]. apply lookup_seq in Hj' as [-> _].
  cbn in Hi, Hj. injection Hi as <-. injection Hj as <-. lia.
Qed.


(** ** get_live_donations_data, as the source has it *)

(** The statement of lines 26-31 does not scan, so every call ends in the
    SyntaxError: no draw is taken and no frame is allocated. *)
Lemma lines_26_31_do_not_scan :
  scan_lines [] [line26; line27; line28; line29; line30; line31] = Raise SyntaxError.
Proof. vm_compute. reflexivity. Qed.

Lemma get_live_donations_data_raises donors_df n w :
  get_live_donations_data donors_df n w = (Raise SyntaxError, w).
Proof.
  unfold get_live_donations_data. apply bind_raise.
  unfold compile_statement. by rewrite lines_26_31_do_not_scan.
Qed.

(** ** Claims on get_live_donations_data *)

(** C5 fails on the code: as the source has it, [get_live_donations_data]
    ends in a SyntaxError on every donor table and for every count, before
    any draw, so it never produces an event.  The defect is the one of C1:
    the opening bracket missing on line 29.  With the bracket in place the
    call on the one-donor table with count 3 returns what the claim says:
    three events of donor 1001, at hours 0, 1 and 2 of today. *)
Theorem donation_stream_syntax_error :
  (forall (w : World) (donors_df : ref) (n : Z),
      get_live_donations_data donors_df n w = (Raise SyntaxError, w)) /\
  heap champion_world !! 0%nat = Some [champion_row] /\
  (exists events w',
      get_live_donations_data_meant 0%nat 3 champion_world = (Return events, w') /\
      map ev_donor_id events = [donor_id champion_row; donor_id champion_row;
                                donor_id champion_row] /\
      map ev_timestamp events
      = [24 * today champion_world; 24 * today champion_world + 1;
         24 * today champion_world + 2]).
Proof.
  split; [intros; apply get_live_donations_data_raises|].
  split; [reflexivity|].
  eexists _, _.
  rewrite (get_live_donations_data_meant_run 0%nat champion_row [] 3 champion_world
             eq_refl) by lia.
  split; [reflexivity|]. split; vm_compute; reflexivity.
Qed.


(** ** get_churn_risk_donors *)

Lemma filter_mask (p : Row -> bool) (f : Frame) :
  map snd (List.filter fst (zip (map p f) f)) = List.filter p f.
Proof.
  induction f as [|r f IH]; [done|]. cbn. destruct (p r); cbn; by rewrite IH.
Qed.

Lemma df_filter_run r f mask w :
  heap w !! r = Some f -> length mask = length f ->
  df_filter r mask w
  = (Return (length (heap w)),
     with_new_frame (map snd (List.filter fst (zip mask f))) w).
Proof.
  intros Hf Hlen. unfold df_filter. mstep ltac:(by apply deref_run).
  by rewrite Hlen, Nat.eqb_refl.
Qed.

Lemma df_sort_values_run r f key w :
  heap w !! r = Some f ->
  df_sort_values r key w
  = (Return (length (heap w)),
     with_new_frame (sort_by (fun a b => key_le (key a) (key b)) f) w).
Proof. intros Hf. unfold df_sort_values. by mstep ltac:(by apply deref_run). Qed.

Lemma df_head_run r f n w :
  heap w !! r = Some f -> 0 <= n ->
  df_head r n w
  = (Return (length (heap w)), with_new_frame (take (Z.to_nat n) f) w).
Proof.
  intros Hf Hn. unfold df_head. mstep ltac:(by apply deref_run).
  by assert ((0 <=? n) = true) as -> by lia.
Qed.

Lemma np_random_uniform_run lo hi size w :
  0 <= size ->
  np_random_uniform lo hi size w
  = (Return (map (fun q => lo + (hi - lo) * unit_interval q)%Q
                 (cells w (Z.to_nat size))),
     advance (Z.to_nat size) w).
Proof.
  intros Hs. unfold np_random_uniform.
  assert ((size <? 0) = false) as -> by lia.
  by mstep ltac:(apply random_raw_n_run).
Qed.

(** Line 52: the first [n] qualifying rows in ascending order of
    total_donations, as a new frame. *)
Lemma churn_candidates_run r f n w :
  heap w !! r = Some f -> 0 <= n ->
  (jd <- df_getitem r join_date ;;
   now <- datetime_now_date ;;
   filtered <- df_filter r (col_lt jd (now - 180)) ;;
   sorted <- df_sort_values filtered total_donations ;;
   df_head sorted n) w
  = (Return (length
               (heap (with_new_frame
                        (sort_by (fun a b => key_le (total_donations a)
                                                    (total_donations b))
                                 (List.filter (qualifies (today w)) f))
                        (with_new_frame (List.filter (qualifies (today w)) f) w)))),
     with_new_frame
       (take (Z.to_nat n)
             (sort_by (fun a b => key_le (total_donations a) (total_donations b))
                      (List.filter (qualifies (today w)) f)))
       (with_new_frame
          (sort_by (fun a b => key_le (total_donations a) (total_donations b))
                   (List.filter (qualifies (today w)) f))
          (with_new_frame (List.filter (qualifies (today w)) f) w))).
Proof.
  intros Hf Hn.
  mstep ltac:(by apply df_getitem_run).
  mstep ltac:(reflexivity).
  mstep ltac:(apply df_filter_run; [done|];
              unfold col_lt; by rewrite !length_map).
  unfold col_lt. rewrite map_map.
  rewrite (filter_mask (fun r => lt_opt (join_date r) (today w - 180))).
  fold (qualifies (today w)).
  mstep ltac:(by apply df_sort_values_run, lookup_new_frame_at).
  by rewrite (df_head_run _ _ _ _ (lookup_new_frame_at _ _ _ eq_refl) Hn).
Qed.

Lemma length_sort_by {A} (le : A -> A -> bool) l :
  length (sort_by le l) = length l.
Proof. by rewrite sort_by_perm. Qed.

(** X4: on any donor table with k donors who joined more than 180 days ago,
    0 < k < num_at_risk, [get_churn_risk_donors] raises ValueError: line 54
    draws num_at_risk scores for a k-row frame and the assignment of the
    score column fails. *)
Lemma churn_short_list_raises r f n w :
  heap w !! r = Some f ->
  (0 < length (List.filter (qualifies (today w)) f))%nat ->
  Z.of_nat (length (List.filter (qualifies (today w)) f)) < n ->
  fst (get_churn_risk_donors r n w) = Raise ValueError.
Proof.
  intros Hf Hk Hn. unfold get_churn_risk_donors.
  mstep ltac:(apply churn_candidates_run; [done | lia]).
  mstep ltac:(by apply df_copy_run, lookup_new_frame_at).
  mstep ltac:(apply np_random_uniform_run; lia).
  erewrite bind_raise; [done|].
  eapply df_setitem_mismatch.
  - exact (lookup_new_frame_at _ _ _ eq_refl).
  - intros Hnil. apply (f_equal length) in Hnil.
    rewrite length_take, length_sort_by in Hnil. cbn in Hnil. lia.
  - rewrite !length_map, length_cells, length_take, length_sort_by. lia.
Qed.

(** When no donor qualifies, the score column is assigned to a frame with an
    empty index, which pandas reindexes: the result has one row per score and
    no donor in any of them. *)
Example churn_no_candidate_example :
  fst (get_churn_risk_donors 0%nat 2 recent_world)
  = Return [mkChurnRow 0 None None None (Some 0.82%Q) (Some "Personal Call"%string);
            mkChurnRow 1 None None None (Some 0.70%Q) (Some "Personal Call"%string)].
Proof. reflexivity. Qed.

(** *** The case with enough candidates *)

Lemma unit_interval_range q :
  (0 <= unit_interval q)%Q /\ (unit_interval q < 1)%Q.
Proof.
  unfold unit_interval.
  pose proof (Qfloor_le q) as Hlo. pose proof (Qlt_floor q) as Hhi.
  rewrite inject_Z_plus in Hhi. change (inject_Z 1) with 1%Q in Hhi.
  split; lra.
Qed.

Lemma rint_bounds q lo hi :
  (inject_Z lo <= q)%Q -> (q <= inject_Z hi)%Q -> lo <= rint q <= hi.
Proof.
  intros Hlo Hhi.
  pose proof (Qfloor_resp_le _ _ Hlo) as Hflo. rewrite Qfloor_Z in Hflo.
  pose proof (Qfloor_resp_le _ _ Hhi) as Hfhi. rewrite Qfloor_Z in Hfhi.
  assert ((0 < q - inject_Z (Qfloor q))%Q -> Qfloor q + 1 <= hi) as Hup.
  { intros Hr. assert (inject_Z (Qfloor q) < inject_Z hi)%Q as Hlt by lra.
    rewrite <- Zlt_Qlt in Hlt. lia. }
  unfold rint.
  destruct (q - inject_Z (Qfloor q) ?= 1 # 2)%Q eqn:Hc.
  - apply Qeq_alt in Hc. destruct (Z.even (Qfloor q)); [lia|].
    split; [lia|]. apply Hup. lra.
  - lia.
  - apply Qgt_alt in Hc. split; [lia|]. apply Hup. lra.
Qed.

Lemma score_range q :
  (0.7 <= np_round 2 (0.7 + (0.95 - 0.7) * unit_interval q))%Q /\
  (np_round 2 (0.7 + (0.95 - 0.7) * unit_interval q) <= 0.95)%Q.
Proof.
  destruct (unit_interval_range q) as [H0 H1].
  set (v := (0.7 + (0.95 - 0.7) * unit_interval q)%Q).
  assert (0.7 <= v)%Q as Hv0 by (unfold v; lra).
  assert (v <= 0.95)%Q as Hv1 by (unfold v; lra).
  unfold np_round. change (10 ^ Z.of_nat 2) with 100.
  destruct (rint_bounds (v * inject_Z 100) 70 95) as [Hr0 Hr1].
  { change (inject_Z 70) with 70%Q. change (inject_Z 100) with 100%Q. lra. }
  { change (inject_Z 95) with 95%Q. change (inject_Z 100) with 100%Q. lra. }
  rewrite Zle_Qle in Hr0, Hr1.
  change (inject_Z 70) with 70%Q in *. change (inject_Z 95) with 95%Q in *.
  change (inject_Z 100) with 100%Q in *.
  split.
  - apply Qle_shift_div_l; lra.
  - apply Qle_shift_div_r; lra.
Qed.

Lemma key_le_total a b : key_le a b = false -> key_le b a = true.
Proof. destruct a, b; cbn; try done. lia. Qed.

Lemma key_le_trans a b c :
  key_le a b = true -> key_le b c = true -> key_le a c = true.
Proof. destruct a, b, c; cbn; try done. lia. Qed.

Lemma insert_sorted_sorted {A} (le : A -> A -> bool) x l :
  (forall a b, le a b = false -> le b a = true) ->
  (forall a b c, le a b = true -> le b c = true -> le a c = true) ->
  StronglySorted (fun a b => le a b = true) l ->
  StronglySorted (fun a b => le a b = true) (insert_sorted le x l).
Proof.
  intros Htot Htrans. induction 1 as [|y l Hs IH Hy]; cbn.
  - repeat constructor.
  - destruct (le x y) eqn:Hxy.
    + constructor; [by constructor|]. constructor; [done|].
      eapply Forall_impl; [exact Hy|]. intros z Hz. by eapply Htrans.
    + constructor; [done|]. rewrite insert_sorted_perm.
      constructor; [by apply Htot|done].
Qed.

Lemma sort_by_sorted {A} (le : A -> A -> bool) l :
  (forall a b, le a b = false -> le b a = true) ->
  (forall a b c, le a b = true -> le b c = true -> le a c = true) ->
  StronglySorted (fun a b => le a b = true) (sort_by le l).
Proof.
  intros Htot Htrans. induction l as [|x l IH]; cbn; [constructor|].
  by apply insert_sorted_sorted.
Qed.

Lemma StronglySorted_lookup {A} (R : A -> A -> Prop) l i j a b :
  StronglySorted R l -> l !! i = Some a -> l !! j = Some b -> (i < j)%nat ->
  R a b.
Proof.
  intros Hs. revert i j. induction Hs as [|x l Hs IH Hx]; intros i j Hi Hj Hij.
  - done.
  - destruct j as [|j]; [lia|]. cbn in Hj. destruct i as [|i].
    + cbn in Hi. injection Hi as <-.
      eapply (proj1 (Forall_forall _ _) Hx), list_elem_of_lookup_2. exact Hj.
    + cbn in Hi. eapply IH; [exact Hi | exact Hj | lia].
Qed.

(** X5: with at least [n] qualifying donors the call returns: exactly [n] rows,
    each of a donor of the table who joined more than 180 days ago, in
    ascending order of total_donations, each with the action
    "Personal Call" and a score in [0.70, 0.95]. *)
Lemma churn_enough_candidates r f n w :
  heap w !! r = Some f ->
  0 <= n <= Z.of_nat (length (List.filter (qualifies (today w)) f)) ->
  exists rows w',
    get_churn_risk_donors r n w = (Return rows, w') /\
    length rows = Z.to_nat n /\
    Forall (fun row =>
              exists d s,
                d ∈ f /\ qualifies (today w) d = true /\
                cr_index row = index d /\ cr_name row = name d /\
                cr_join_date row = join_date d /\
                cr_total_donations row = total_donations d /\
                cr_suggested_action row = Some "Personal Call"%string /\
                cr_churn_risk_score row = Some s /\
                (0.7 <= s)%Q /\ (s <= 0.95)%Q) rows /\
    (forall i j a b,
        rows !! i = Some a -> rows !! j = Some b -> (i < j)%nat ->
        key_le (cr_total_donations a) (cr_total_donations b) = true).
Proof.
  intros Hf Hn. unfold get_churn_risk_donors.
  set (cands := List.filter (qualifies (today w)) f) in *.
  set (sorted := sort_by (fun a b => key_le (total_donations a) (total_donations b))
                         cands).
  set (top := take (Z.to_nat n) sorted).
  assert (length top = Z.to_nat n) as Hlen.
  { unfold top, sorted. rewrite length_take, length_sort_by. lia. }
  mstep ltac:(apply churn_candidates_run; [done | lia]).
  mstep ltac:(by apply df_copy_run, lookup_new_frame_at).
  mstep ltac:(apply np_random_uniform_run; lia).
  fold cands sorted top.
  match goal with |- context [df_setitem set_churn_risk_score _ ?c] =>
    set (scores := c) end.
  assert (length scores = Z.to_nat n) as Hlens
    by (unfold scores; by rewrite !length_map, length_cells).
  mstep ltac:(apply df_setitem_run;
              [exact (lookup_new_frame_at _ _ _ eq_refl) | by rewrite Hlens, Hlen]).
  mstep ltac:(eapply df_setitem_scalar_run, lookup_with_frame_eq;
              exact (lookup_new_frame_at _ _ _ eq_refl)).
  mstep ltac:(eapply deref_run, lookup_with_frame_eq, lookup_with_frame_eq;
              exact (lookup_new_frame_at _ _ _ eq_refl)).
  eexists _, _. split; [done|].
  set (rows := map churn_columns _).
  assert (forall i a, rows !! i = Some a ->
            exists d s, top !! i = Some d /\ scores !! i = Some s /\
              a = churn_columns
                    (set_suggested_action "Personal Call"
                       (set_churn_risk_score s d))) as Hrow.
  { intros i a. unfold rows.
    rewrite !list_lookup_fmap, lookup_zip_with.
    destruct (scores !! i) as [s|]; [|done].
    destruct (top !! i) as [d|]; [|done].
    cbn. intros [= <-]. by exists d, s. }
  split; [unfold rows; rewrite !length_map, length_zip_with; lia|].
  split.
  - apply Forall_forall. intros a [i Hi]%list_elem_of_lookup.
    destruct (Hrow i a Hi) as (d & s & Hd & Hs & ->).
    assert (d ∈ cands) as Hdc.
    { apply lookup_take_Some in Hd as [Hd _].
      apply list_elem_of_lookup_2 in Hd. unfold sorted in Hd.
      by rewrite sort_by_perm in Hd. }
    apply list_elem_of_In, filter_In in Hdc as [Hdf Hq].
    exists d, s. split; [by apply list_elem_of_In|]. split; [done|].
    do 6 (split; [done|]).
    apply list_elem_of_lookup_2 in Hs. unfold scores in Hs.
    apply list_elem_of_fmap in Hs as (v & -> & Hv).
    apply list_elem_of_fmap in Hv as (q & -> & _).
    apply score_range.
  - intros i j a b Hi Hj Hij.
    destruct (Hrow i a Hi) as (d1 & s1 & Hd1 & _ & ->).
    destruct (Hrow j b Hj) as (d2 & s2 & Hd2 & _ & ->).
    cbn [churn_columns cr_total_donations set_suggested_action
         set_churn_risk_score total_donations].
    apply lookup_take_Some in Hd1 as [Hd1 _].
    apply lookup_take_Some in Hd2 as [Hd2 _].
    eapply (StronglySorted_lookup
              (fun a b => key_le (total_donations a) (total_donations b) = true));
      [|exact Hd1|exact Hd2|exact Hij].
    apply (sort_by_sorted
             (fun a b => key_le (total_donations a) (total_donations b))).
    + intros x y. apply key_le_total.
    + intros x y z. apply key_le_trans.
Qed.

(** ** Claim on get_churn_risk_donors *)

(** C2 fails on the code when fewer than top_n donors qualify: with one
    donor, who joined 200 days ago (more than 180), and top_n = 5, line 54
    draws 5 scores for a 1-row frame and the assignment raises ValueError
    instead of returning the one qualifying donor. *)
Theorem churn_partial_result_raises :
  join_date lapsed_row = Some (today lapsed_world - 200) /\
  List.filter (qualifies (today lapsed_world)) [lapsed_row] = [lapsed_row] /\
  fst (get_churn_risk_donors 0%nat 5 lapsed_world) = Raise ValueError.
Proof. repeat split. Qed.

(** ** Claim on the campaign weights *)

(** C1 fails on the code: line 29 passes the weights as
    [p=0.5, 0.3, 0.2])], without the opening bracket of the list, so the
    closing bracket meets the parenthesis of the call and the statement of
    lines 26-31 is a SyntaxError: no campaign is ever drawn.  With the
    bracket in place the statement is well bracketed, and the three weights
    pass the validation of [np.random.choice] (they are non-negative, as many
    as the campaigns, and sum to 1). *)
Theorem campaign_weights_line_malformed :
  scan_line ["{"]%char false
            "        'campaign': np.random.choice(['Summer Appeal', 'Holiday Drive', 'Emergency Fund'], num_donations, p=0.5, 0.3, 0.2"
    = Return ["("; "{"]%char /\
  scan_lines [] [line26; line27; line28; line29; line30; line31]
    = Raise SyntaxError /\
  scan_lines [] [line26; line27; line28; line29_meant; line30; line31]
    = Return tt /\
  valid_p (length CAMPAIGNS) campaign_weights = true /\
  (sum_Q campaign_weights == 1)%Q.
Proof. repeat split; vm_compute; reflexivity. Qed.

(** * Further properties of the code *)

(** ** generate_synthetic_donors: join dates and names *)

Lemma str_inj i j : 0 <= i -> 0 <= j -> str i = str j -> i = j.
Proof.
  intros Hi Hj H. unfold str in H.
  assert (forall n, N.to_uint n <> Decimal.Nil) as Hnn.
  { intros [|p]; [discriminate|]. apply DecimalPos.Unsigned.to_uint_nonnil. }
  apply (f_equal NilZero.uint_of_string) in H.
  rewrite !NilZero.usu in H by apply Hnn.
  injection H as H. apply DecimalN.Unsigned.to_uint_inj in H. lia.
Qed.

(** X1: for every count >= 0, every donor that [generate_synthetic_donors]
    creates has a join_date between 729 and 30 days before today (line 15
    subtracts randint(30, 730) days, whose upper bound is exclusive). *)
Theorem generated_join_dates (n : Z) (w : World) :
  0 <= n ->
  exists donors_df w' f,
    generate_synthetic_donors n w = (Return donors_df, w') /\
    heap w' !! donors_df = Some f /\
    Forall (fun r => exists jd, join_date r = Some jd /\
                       today w - 729 <= jd <= today w - 30) f.
Proof.
  intros Hn. eexists _, _, _. rewrite generate_run by done.
  split; [done|]. split; [apply (lookup_new_frame _ (advance _ w))|].
  apply Forall_forall. intros r (i & -> & _)%list_elem_of_fmap.
  eexists. split; [reflexivity|].
  pose proof (bounded_range 30 730
                (tape w (cursor w + i)%nat) ltac:(lia)). lia.
Qed.

Lemma generated_join_dates_example :
  0 <= 10 /\
  exists donors_df w' f,
    generate_synthetic_donors 10 demo_world = (Return donors_df, w') /\
    heap w' !! donors_df = Some f /\
    Forall (fun r => exists jd, join_date r = Some jd /\
                       today demo_world - 729 <= jd <= today demo_world - 30) f.
Proof.
  split; [lia|]. apply (generated_join_dates 10 demo_world). lia.
Defined.

(** X2: for every count >= 0, the donor at position i of the generated
    table is named "Donor_i" (decimal, from 0), the table's index is
    0, 1, ..., n-1, and no two donors share a name. *)
Theorem generated_names_unique (n : Z) (w : World) :
  0 <= n ->
  exists donors_df w' f,
    generate_synthetic_donors n w = (Return donors_df, w') /\
    heap w' !! donors_df = Some f /\
    map index f = seq 0 (Z.to_nat n) /\
    map name f
      = map (fun i => Some ("Donor_" +:+ str (Z.of_nat i))) (seq 0 (Z.to_nat n)) /\
    NoDup (map name f).
Proof.
  intros Hn. eexists _, _, _. rewrite generate_run by done.
  split; [done|]. split; [apply (lookup_new_frame _ (advance _ w))|].
  split; [rewrite map_map; apply map_id|].
  assert (map name (map (generated_row w (Z.to_nat n)) (seq 0 (Z.to_nat n)))
          = map (fun i => Some ("Donor_" +:+ str (Z.of_nat i)))
                (seq 0 (Z.to_nat n))) as Hnames by (by rewrite map_map).
  split; [done|]. rewrite Hnames.
  apply NoDup_fmap_2_strong; [|apply NoDup_seq].
  intros i j _ _ [= H]. apply str_inj in H; lia.
Qed.

Lemma generated_names_unique_example :
  0 <= 12 /\
  exists donors_df w' f,
    generate_synthetic_donors 12 demo_world = (Return donors_df, w') /\
    heap w' !! donors_df = Some f /\
    map index f = seq 0 (Z.to_nat 12) /\
    map name f
      = map (fun i => Some ("Donor_" +:+ str (Z.of_nat i))) (seq 0 (Z.to_nat 12)) /\
    NoDup (map name f).
Proof.
  split; [lia|]. apply (generated_names_unique 12 demo_world). lia.
Defined.

(** ** get_churn_risk_donors: every outcome *)

Lemma df_head_run_any r f n w :
  heap w !! r = Some f ->
  df_head r n w
  = (Return (length (heap w)),
     with_new_frame (if 0 <=? n then take (Z.to_nat n) f
                     else take (length f - Z.to_nat (- n)) f) w).
Proof. intros Hf. unfold df_head. by mstep ltac:(by apply deref_run). Qed.

Lemma df_setitem_reindex {V} (set : V -> Row -> Row) r v values w :
  heap w !! r = Some [] ->
  df_setitem set r (v :: values) w
  = (Return tt,
     with_frame r (imap (fun i x => set x (nan_row i)) (v :: values)) w).
Proof.
  intros Hf. unfold df_setitem. by mstep ltac:(by apply deref_run).
Qed.

Lemma churn_top_run r f n w :
  heap w !! r = Some f ->
  exists w1,
    (jd <- df_getitem r join_date ;;
     now <- datetime_now_date ;;
     filtered <- df_filter r (col_lt jd (now - 180)) ;;
     sorted <- df_sort_values filtered total_donations ;;
     df_head sorted n) w
    = (Return (length (heap w1)), with_new_frame (churn_top (today w) f n) w1)
    /\ tape w1 = tape w /\ cursor w1 = cursor w.
Proof.
  intros Hf.
  eexists. split.
  - mstep ltac:(by apply df_getitem_run).
    mstep ltac:(reflexivity).
    mstep ltac:(apply df_filter_run; [done|];
                unfold col_lt; by rewrite !length_map).
    unfold col_lt. rewrite map_map.
    rewrite (filter_mask (fun r => lt_opt (join_date r) (today w - 180))).
    fold (qualifies (today w)).
    mstep ltac:(by apply df_sort_values_run, lookup_new_frame_at).
    rewrite (df_head_run_any _ _ _ _ (lookup_new_frame_at _ _ _ eq_refl)).
    reflexivity.
  - done.
Qed.

Lemma get_churn_risk_donors_outcome r f n w :
  heap w !! r = Some f ->
  fst (get_churn_risk_donors r n w)
  = churn_outcome (churn_top (today w) f n) (churn_scores w n) n.
Proof.
  intros Hf. unfold get_churn_risk_donors, churn_outcome.
  destruct (churn_top_run r f n w Hf) as (w1 & Hrun & Ht & Hc).
  mstep ltac:(exact Hrun).
  mstep ltac:(by apply df_copy_run, lookup_new_frame_at).
  set (top := churn_top (today w) f n).
  set (w2 := with_new_frame top (with_new_frame top w1)).
  assert (heap w2 !! length (heap (with_new_frame top w1)) = Some top) as Hc2
    by exact (lookup_new_frame_at _ _ _ eq_refl).
  destruct (Z.ltb_spec n 0) as [Hn|Hn].
  { erewrite bind_raise; [done|]. unfold np_random_uniform.
    by assert ((n <? 0) = true) as -> by lia. }
  mstep ltac:(by apply np_random_uniform_run).
  assert (map (np_round 2)
              (map (fun q => (0.7 + (0.95 - 0.7) * unit_interval q)%Q)
                   (cells w2 (Z.to_nat n))) = churn_scores w n) as ->.
  { unfold churn_scores, cells. cbn [tape cursor w2 with_new_frame].
    by rewrite Ht, Hc. }
  set (scores := churn_scores w n).
  set (w3 := advance (Z.to_nat n) w2).
  assert (heap w3 !! length (heap (with_new_frame top w1)) = Some top) as Hc3
    by exact Hc2.
  set (r' := length (heap (with_new_frame top w1))) in *.
  clearbody w3 r' scores. clear Hc2 w2 Hrun. clearbody top.
  destruct top as [|d top], scores as [|s scores].
  - mstep ltac:(by apply df_setitem_run).
    mstep ltac:(eapply df_setitem_scalar_run, lookup_with_frame_eq; exact Hc3).
    mstep ltac:(eapply deref_run, lookup_with_frame_eq, lookup_with_frame_eq;
                exact Hc3).
    done.
  - mstep ltac:(by apply df_setitem_reindex).
    mstep ltac:(eapply df_setitem_scalar_run, lookup_with_frame_eq; exact Hc3).
    mstep ltac:(eapply deref_run, lookup_with_frame_eq, lookup_with_frame_eq;
                exact Hc3).
    done.
  - erewrite bind_raise; [done|]. by eapply df_setitem_mismatch.
  - destruct (Nat.eqb_spec (length (s :: scores)) (length (d :: top))) as [He|He].
    + mstep ltac:(by apply df_setitem_run).
      mstep ltac:(eapply df_setitem_scalar_run, lookup_with_frame_eq; exact Hc3).
      mstep ltac:(eapply deref_run, lookup_with_frame_eq, lookup_with_frame_eq;
                  exact Hc3).
      done.
    + erewrite bind_raise; [done|]. by eapply df_setitem_mismatch.
Qed.

(** X3: on any donor table, a negative num_at_risk makes
    [get_churn_risk_donors] raise ValueError: [head] accepts it, but line 54
    asks [np.random.uniform] for a negative number of scores. *)
Theorem churn_negative_count_raises (w : World) (donors_df : ref) (f : Frame) (n : Z) :
  heap w !! donors_df = Some f -> n < 0 ->
  fst (get_churn_risk_donors donors_df n w) = Raise ValueError.
Proof.
  intros Hf Hn. rewrite (get_churn_risk_donors_outcome _ _ _ _ Hf).
  unfold churn_outcome. by assert ((n <? 0) = true) as -> by lia.
Qed.

Lemma churn_negative_count_raises_example :
  heap lapsed_world !! 0%nat = Some [lapsed_row] /\ -1 < 0 /\
  fst (get_churn_risk_donors 0%nat (-1) lapsed_world) = Raise ValueError.
Proof.
  split; [reflexivity|]. split; [lia|].
  apply (churn_negative_count_raises lapsed_world 0%nat [lapsed_row] (-1));
    [reflexivity | lia].
Defined.

Lemma churn_short_list_raises_example :
  heap lapsed_world !! 0%nat = Some [lapsed_row] /\
  (0 < length (List.filter (qualifies (today lapsed_world)) [lapsed_row]))%nat /\
  Z.of_nat (length (List.filter (qualifies (today lapsed_world)) [lapsed_row])) < 2 /\
  fst (get_churn_risk_donors 0%nat 2 lapsed_world) = Raise ValueError.
Proof.
  split; [reflexivity|]. split; [by vm_compute|]. split; [by vm_compute|].
  apply (churn_short_list_raises 0%nat [lapsed_row] 2 lapsed_world);
    [reflexivity | by vm_compute | by vm_compute].
Defined.

Lemma churn_enough_candidates_example :
  heap lapsed_world !! 0%nat = Some [lapsed_row] /\
  0 <= 1 <= Z.of_nat (length (List.filter (qualifies (today lapsed_world))
                                          [lapsed_row])) /\
  exists rows w',
    get_churn_risk_donors 0%nat 1 lapsed_world = (Return rows, w') /\
    length rows = Z.to_nat 1 /\
    Forall (fun row =>
              exists d s,
                d ∈ [lapsed_row] /\ qualifies (today lapsed_world) d = true /\
                cr_index row = index d /\ cr_name row = name d /\
                cr_join_date row = join_date d /\
                cr_total_donations row = total_donations d /\
                cr_suggested_action row = Some "Personal Call"%string /\
                cr_churn_risk_score row = Some s /\
                (0.7 <= s)%Q /\ (s <= 0.95)%Q) rows /\
    (forall i j a b,
        rows !! i = Some a -> rows !! j = Some b -> (i < j)%nat ->
        key_le (cr_total_donations a) (cr_total_donations b) = true).
Proof.
  split; [reflexivity|]. split; [by vm_compute|].
  apply (churn_enough_candidates 0%nat [lapsed_row] 1 lapsed_world);
    [reflexivity | by vm_compute].
Defined.

(** X6: when no donor of the table joined more than 180 days ago and
    num_at_risk is positive, [get_churn_risk_donors] does not return an empty
    table: assigning the scores to the empty selection reindexes it, and the
    result has num_at_risk rows, indexed 0, 1, ..., each with a score in
    [0.70, 0.95] and "Personal Call" but with no donor (name, join_date and
    total_donations missing). *)
Theorem churn_no_candidate_rows (w : World) (donors_df : ref) (f : Frame) (n : Z) :
  heap w !! donors_df = Some f ->
  List.filter (qualifies (today w)) f = [] -> 0 < n ->
  exists rows,
    fst (get_churn_risk_donors donors_df n w) = Return rows /\
    map cr_index rows = seq 0 (Z.to_nat n) /\
    Forall (fun row =>
              cr_name row = None /\ cr_join_date row = None /\
              cr_total_donations row = None /\
              cr_suggested_action row = Some "Personal Call"%string /\
              exists s, cr_churn_risk_score row = Some s /\
                        (0.7 <= s)%Q /\ (s <= 0.95)%Q) rows.
Proof.
  intros Hf Hnone Hn. rewrite (get_churn_risk_donors_outcome _ _ _ _ Hf).
  unfold churn_outcome, churn_top. rewrite Hnone.
  assert ((n <? 0) = false) as -> by lia.
  assert ((0 <=? n) = true) as -> by lia.
  cbn [List.filter sort_by fold_right]. rewrite take_nil.
  assert (length (churn_scores w n) = Z.to_nat n) as Hlen.
  { unfold churn_scores. by rewrite !length_map, length_cells. }
  assert (forall s, s ∈ churn_scores w n -> (0.7 <= s)%Q /\ (s <= 0.95)%Q) as Hrange.
  { intros x (v & -> & (q & -> & _)%list_elem_of_fmap)%list_elem_of_fmap.
    apply score_range. }
  rewrite <- Hlen.
  assert (churn_scores w n <> []) as Hne.
  { intros E. rewrite E in Hlen. cbn in Hlen. lia. }
  clear Hlen. revert Hne Hrange. generalize (churn_scores w n).
  intros [|s scores] Hne Hrange; [done|].
  set (l := s :: scores) in *.
  eexists. split; [done|].
  split.
  - apply list_eq. intros i.
    rewrite !list_lookup_fmap, list_lookup_imap.
    destruct (l !! i) as [x|] eqn:Hi.
    + rewrite lookup_seq_lt by (by eapply lookup_lt_Some). done.
    + rewrite lookup_seq_ge by (by apply lookup_ge_None). done.
  - apply Forall_forall. intros row [i Hi]%list_elem_of_lookup.
    rewrite !list_lookup_fmap, list_lookup_imap in Hi.
    destruct (l !! i) as [x|] eqn:Hx; [|done]. cbn in Hi. injection Hi as <-.
    cbn. do 4 (split; [done|]). exists x. split; [done|].
    apply Hrange. by eapply list_elem_of_lookup_2.
Qed.

Lemma churn_no_candidate_rows_example :
  heap recent_world !! 0%nat = Some [recent_row] /\
  List.filter (qualifies (today recent_world)) [recent_row] = [] /\ 0 < 5 /\
  exists rows,
    fst (get_churn_risk_donors 0%nat 5 recent_world) = Return rows /\
    map cr_index rows = seq 0 (Z.to_nat 5) /\
    Forall (fun row =>
              cr_name row = None /\ cr_join_date row = None /\
              cr_total_donations row = None /\
              cr_suggested_action row = Some "Personal Call"%string /\
              exists s, cr_churn_risk_score row = Some s /\
                        (0.7 <= s)%Q /\ (s <= 0.95)%Q) rows.
Proof.
  split; [reflexivity|]. split; [reflexivity|]. split; [lia|].
  apply (churn_no_candidate_rows recent_world 0%nat [recent_row] 5);
    [reflexivity | reflexivity | lia].
Defined.

(** ** The derived views after get_donor_segments *)

Lemma filter_map_commute {A} (p : A -> bool) (g : A -> A) (l : list A) :
  (forall x, p (g x) = p x) ->
  List.filter p (map g l) = map g (List.filter p l).
Proof.
  intros Hp. induction l as [|x l IH]; [done|]. cbn. rewrite Hp.
  destruct (p x); cbn; by rewrite IH.
Qed.

Lemma insert_sorted_map {A} (le : A -> A -> bool) (g : A -> A) x l :
  (forall a b, le (g a) (g b) = le a b) ->
  insert_sorted le (g x) (map g l) = map g (insert_sorted le x l).
Proof.
  intros Hle. induction l as [|y l IH]; [done|]. cbn. rewrite Hle.
  destruct (le x y); cbn; [done|]. by rewrite IH.
Qed.

Lemma sort_by_map {A} (le : A -> A -> bool) (g : A -> A) l :
  (forall a b, le (g a) (g b) = le a b) ->
  sort_by le (map g l) = map g (sort_by le l).
Proof.
  intros Hle. induction l as [|x l IH]; [done|]. cbn.
  fold (sort_by le (map g l)). fold (sort_by le l).
  rewrite IH. by apply insert_sorted_map.
Qed.

Lemma churn_top_map now (g : Row -> Row) f n :
  (forall r, join_date (g r) = join_date r) ->
  (forall r, total_donations (g r) = total_donations r) ->
  churn_top now (map g f) n = map g (churn_top now f n).
Proof.
  intros Hjd Htd. unfold churn_top.
  rewrite (filter_map_commute (qualifies now) g)
    by (intros x; unfold qualifies; by rewrite Hjd).
  rewrite (sort_by_map _ g) by (intros a b; by rewrite !Htd).
  rewrite length_map. destruct (0 <=? n); by rewrite fmap_take.
Qed.

Lemma churn_outcome_map (g : Row -> Row) top scores n :
  (forall s d, churn_columns (set_suggested_action "Personal Call"
                                (set_churn_risk_score s (g d)))
               = churn_columns (set_suggested_action "Personal Call"
                                  (set_churn_risk_score s d))) ->
  churn_outcome (map g top) scores n = churn_outcome top scores n.
Proof.
  intros Hg. unfold churn_outcome. destruct (n <? 0); [done|].
  assert (map churn_columns
            (map (set_suggested_action "Personal Call")
                 (zip_with set_churn_risk_score scores (map g top)))
          = map churn_columns
              (map (set_suggested_action "Personal Call")
                   (zip_with set_churn_risk_score scores top))) as Hz.
  { revert top. induction scores as [|s scores IH]; intros [|d top]; try done.
    cbn. by rewrite Hg, IH. }
  rewrite length_map.
  destruct top as [|d top], scores as [|s scores]; try done.
  cbn [map] in *. by rewrite Hz.
Qed.

(** X7: [get_donor_segments] writes into the table that
    [get_churn_risk_donors] reads, yet calling it first (as the dashboard
    does) changes nothing of what [get_churn_risk_donors] returns or raises,
    for any table and any num_at_risk. *)
Theorem churn_after_segments (w : World) (donors_df : ref) (f : Frame) (n : Z) :
  heap w !! donors_df = Some f ->
  fst ((exec get_donor_segments donors_df ;; get_churn_risk_donors donors_df n) w)
  = fst (get_churn_risk_donors donors_df n w).
Proof.
  intros Hf.
  mstep ltac:(by apply get_donor_segments_run).
  rewrite (get_churn_risk_donors_outcome _ (labelled (today w) f))
    by (by eapply lookup_with_frame_eq).
  rewrite (get_churn_risk_donors_outcome _ _ _ _ Hf).
  unfold labelled. cbn [today with_frame].
  rewrite churn_top_map by done.
  rewrite churn_outcome_map by done.
  done.
Qed.

Lemma churn_after_segments_example :
  heap lapsed_world !! 0%nat = Some [lapsed_row] /\
  fst ((exec get_donor_segments 0%nat ;; get_churn_risk_donors 0%nat 1) lapsed_world)
  = fst (get_churn_risk_donors 0%nat 1 lapsed_world).
Proof.
  split; [reflexivity|].
  apply (churn_after_segments lapsed_world 0%nat [lapsed_row] 1). reflexivity.
Defined.

(** ** get_donation_nudges: every outcome *)

Lemma df_sample_positions r f n w :
  heap w !! r = Some f -> 0 <= n <= Z.of_nat (length f) ->
  df_sample r n w
  = (Return (length (heap w)),
     with_new_frame (omap (fun p => f !! p) (sampled_positions w (length f) n))
                    (advance (length f - 1) w)).
Proof.
  intros Hf Hn. unfold df_sample.
  mstep ltac:(by apply deref_run).
  assert ((n <? 0) = false) as -> by lia.
  assert ((Z.of_nat (length f) <? n) = false) as -> by lia.
  unfold np_random_permutation. mstep ltac:(apply shuffle_run).
  fold (sampled_positions w (length f) n).
  destruct (shuffled_spec (length f - 1) (seq 0 (length f)) (tape w) (cursor w))
    as (Hlen & Hnd & Hin); [apply NoDup_seq|].
  assert (Forall (fun p => is_Some (f !! p)) (sampled_positions w (length f) n))
    as Hall.
  { apply Forall_take, Forall_forall. intros p Hp%Hin.
    apply elem_of_seq in Hp. apply lookup_lt_is_Some_2. lia. }
  assert (mapM (fun p => f !! p) (sampled_positions w (length f) n)
          = Some (omap (fun p => f !! p) (sampled_positions w (length f) n)))
    as ->; [|done].
  induction Hall as [|p ps [x Hx] _ IH]; [done|].
  cbn. rewrite Hx. cbn. by rewrite IH.
Qed.

Lemma get_donation_nudges_outcome r f n w :
  heap w !! r = Some f ->
  fst (get_donation_nudges r n w) = nudges_outcome w f n.
Proof.
  intros Hf. unfold nudges_outcome, get_donation_nudges.
  destruct (Z.ltb_spec n 0) as [Hn|Hn].
  { erewrite bind_raise; [done|]. unfold df_sample.
    mstep ltac:(by apply deref_run).
    by assert ((n <? 0) = true) as -> by lia. }
  destruct (Z.ltb_spec (Z.of_nat (length f)) n) as [Hbig|Hbig].
  { by erewrite bind_raise by (by eapply df_sample_too_many). }
  set (rows := omap (fun p => f !! p) (sampled_positions w (length f) n)).
  assert (length rows = Z.to_nat n) as Hlenr.
  { destruct (df_sample_run r f n w Hf ltac:(lia))
      as (ps & rows' & Hrun & Hlen & _ & Hrows).
    rewrite (df_sample_positions r f n w Hf) in Hrun by lia.
    injection Hrun as Hrun. apply app_inv_head in Hrun.
    injection Hrun as Hrun. fold rows in Hrun.
    rewrite Hrun, <- (Forall2_length _ _ _ Hrows). done. }
  mstep ltac:(apply df_sample_positions; [done | lia]).
  fold rows. set (w1 := with_new_frame rows _).
  mstep ltac:(by apply df_copy_run, lookup_new_frame_at).
  mstep ltac:(apply df_getitem_run, lookup_new_frame).
  mstep ltac:(apply df_setitem_run;
              [apply lookup_new_frame | by rewrite !length_map]).
  rewrite map_map, zip_with_set_map, with_frame_new.
  unfold CHANNELS at 1.
  mstep ltac:(apply np_random_choice_run; lia).
  mstep ltac:(apply df_setitem_run;
              [apply (lookup_new_frame _ (advance _ w1))
              | by rewrite !length_map, length_cells, Hlenr]).
  mstep ltac:(eapply deref_run, lookup_with_frame_eq;
              apply (lookup_new_frame _ (advance _ w1))).
  done.
Qed.

(** X8: on any donor table, [get_donation_nudges] raises ValueError for a
    negative count ([DataFrame.sample] rejects it) and returns an empty
    table for count 0. *)
Theorem nudges_count_edges (w : World) (donors_df : ref) (f : Frame) (n : Z) :
  heap w !! donors_df = Some f ->
  (n < 0 -> fst (get_donation_nudges donors_df n w) = Raise ValueError) /\
  (n = 0 -> fst (get_donation_nudges donors_df n w) = Return []).
Proof.
  intros Hf. rewrite (get_donation_nudges_outcome _ _ _ _ Hf).
  unfold nudges_outcome. split.
  - intros Hn. by assert ((n <? 0) = true) as -> by lia.
  - intros ->. change (0 <? 0) with false. cbn match.
    destruct (Z.ltb_spec (Z.of_nat (length f)) 0) as [Hlt|_]; [lia|].
    done.
Qed.

Lemma nudges_count_edges_example :
  heap champion_world !! 0%nat = Some [champion_row] /\
  fst (get_donation_nudges 0%nat (-3) champion_world) = Raise ValueError /\
  fst (get_donation_nudges 0%nat 0 champion_world) = Return [].
Proof.
  split; [reflexivity|]. split.
  - apply (proj1 (nudges_count_edges champion_world 0%nat [champion_row] (-3)
                    eq_refl)). lia.
  - apply (proj2 (nudges_count_edges champion_world 0%nat [champion_row] 0
                    eq_refl)). reflexivity.
Defined.

Lemma omap_lookup_map (g : Row -> Row) (f : Frame) (ps : list nat) :
  omap (fun p => map g f !! p) ps = map g (omap (fun p => f !! p) ps).
Proof.
  induction ps as [|p ps IH]; [done|]. cbn.
  rewrite list_lookup_fmap. destruct (f !! p); cbn; by rewrite IH.
Qed.

(** X10: calling [get_donor_segments] first changes nothing of what
    [get_donation_nudges] returns or raises, for any table and any count:
    the sample, the asks and the channels are the same. *)
Theorem nudges_after_segments (w : World) (donors_df : ref) (f : Frame) (n : Z) :
  heap w !! donors_df = Some f ->
  fst ((exec get_donor_segments donors_df ;; get_donation_nudges donors_df n) w)
  = fst (get_donation_nudges donors_df n w).
Proof.
  intros Hf.
  mstep ltac:(by apply get_donor_segments_run).
  rewrite (get_donation_nudges_outcome _ (labelled (today w) f))
    by (by eapply lookup_with_frame_eq).
  rewrite (get_donation_nudges_outcome _ _ _ _ Hf).
  unfold nudges_outcome, labelled. rewrite length_map.
  destruct (n <? 0); [done|]. destruct (Z.of_nat (length f) <? n); [done|].
  f_equal.
  change (sampled_positions (with_frame donors_df _ w))
    with (sampled_positions w).
  change (nudge_channels (with_frame donors_df _ w)) with (nudge_channels w).
  rewrite omap_lookup_map.
  generalize (nudge_channels w (length f) n).
  generalize (omap (fun p => f !! p) (sampled_positions w (length f) n)).
  intros rows. induction rows as [|r rows IH]; intros [|c cs]; try done.
  cbn. f_equal. apply IH.
Qed.

Lemma nudges_after_segments_example :
  heap champion_world !! 0%nat = Some [champion_row] /\
  fst ((exec get_donor_segments 0%nat ;; get_donation_nudges 0%nat 1) champion_world)
  = fst (get_donation_nudges 0%nat 1 champion_world).
Proof.
  split; [reflexivity|].
  apply (nudges_after_segments champion_world 0%nat [champion_row] 1). reflexivity.
Defined.

(** ** get_donor_segments: repeated calls, what a label tells, the order of
    the counts *)

Lemma labelled_idempotent now f : labelled now (labelled now f) = labelled now f.
Proof. unfold labelled. rewrite map_map. by apply map_ext. Qed.

Lemma with_frame_twice r f g w :
  with_frame r f (with_frame r g w) = with_frame r f w.
Proof. unfold with_frame. cbn. by rewrite list_insert_insert_eq. Qed.

(** X12: [get_donor_segments] is idempotent: called twice in a row on a
    donor table it returns the same counts and leaves the same table (and
    the same world) as called once. *)
Theorem segments_idempotent (w : World) (donors_df : ref) (f : Frame) :
  heap w !! donors_df = Some f ->
  (exec get_donor_segments donors_df ;; get_donor_segments donors_df) w
  = get_donor_segments donors_df w.
Proof.
  intros Hf.
  mstep ltac:(by apply get_donor_segments_run).
  rewrite (get_donor_segments_run _ (labelled (today w) f))
    by (by eapply lookup_with_frame_eq).
  rewrite (get_donor_segments_run _ _ _ Hf).
  cbn [today with_frame]. fold (with_frame donors_df (labelled (today w) f) w).
  by rewrite labelled_idempotent, with_frame_twice.
Qed.

Lemma segments_idempotent_example :
  heap champion_world !! 0%nat = Some [champion_row] /\
  (exec get_donor_segments 0%nat ;; get_donor_segments 0%nat) champion_world
  = get_donor_segments 0%nat champion_world.
Proof.
  split; [reflexivity|].
  apply (segments_idempotent champion_world 0%nat [champion_row]). reflexivity.
Defined.

(** X13: what a label tells about a donor after [get_donor_segments]: a
    donor labelled "💜 Champions" has total_amount > 150 and
    total_donations > 10; one labelled "Emerging Supporters" has
    total_amount > 50 and joined less than 90 days ago; one labelled
    "One-Time Givers" has exactly one donation; and a donor labelled
    "At-Risk Donors" with all three fields present has more or fewer than
    one donation, is no champion, and has total_amount <= 50 or joined 90
    days ago or earlier. *)
Theorem segment_labels_sound (w : World) (donors_df : ref) (f : Frame) :
  heap w !! donors_df = Some f ->
  exists f',
    heap (snd (get_donor_segments donors_df w)) !! donors_df = Some f' /\
    Forall (fun r =>
      (segment r = Some "💜 Champions"%string ->
       exists ta td, total_amount r = Some ta /\ total_donations r = Some td /\
                     150 < ta /\ 10 < td) /\
      (segment r = Some "Emerging Supporters"%string ->
       exists ta jd, total_amount r = Some ta /\ join_date r = Some jd /\
                     50 < ta /\ today w - 90 < jd) /\
      (segment r = Some "One-Time Givers"%string ->
       total_donations r = Some 1) /\
      (segment r = Some "At-Risk Donors"%string ->
       forall ta td jd,
         total_amount r = Some ta -> total_donations r = Some td ->
         join_date r = Some jd ->
         td <> 1 /\ (ta <= 150 \/ td <= 10) /\ (ta <= 50 \/ jd <= today w - 90)))
      f'.
Proof.
  intros Hf. eexists. rewrite (get_donor_segments_run _ _ _ Hf).
  split; [by eapply lookup_with_frame_eq|].
  apply Forall_forall. intros r' (r & -> & _)%list_elem_of_fmap.
  cbn [segment set_segment total_amount total_donations join_date].
  unfold row_label, gt_opt, eq_opt.
  destruct (total_amount r) as [ta|], (total_donations r) as [td|],
           (join_date r) as [jd|]; cbn [andb];
    repeat match goal with
           | |- context [?a <? ?b] => destruct (Z.ltb_spec a b)
           | |- context [?a =? ?b] => destruct (Z.eqb_spec a b)
           end; cbn [andb];
    (repeat split; intros; try discriminate; simplify_eq; eauto with lia).
Qed.

Lemma segment_labels_sound_example :
  heap champion_world !! 0%nat = Some [champion_row] /\
  exists f',
    heap (snd (get_donor_segments 0%nat champion_world)) !! 0%nat = Some f' /\
    Forall (fun r =>
      (segment r = Some "💜 Champions"%string ->
       exists ta td, total_amount r = Some ta /\ total_donations r = Some td /\
                     150 < ta /\ 10 < td) /\
      (segment r = Some "Emerging Supporters"%string ->
       exists ta jd, total_amount r = Some ta /\ join_date r = Some jd /\
                     50 < ta /\ today champion_world - 90 < jd) /\
      (segment r = Some "One-Time Givers"%string ->
       total_donations r = Some 1) /\
      (segment r = Some "At-Risk Donors"%string ->
       forall ta td jd,
         total_amount r = Some ta -> total_donations r = Some td ->
         join_date r = Some jd ->
         td <> 1 /\ (ta <= 150 \/ td <= 10) /\
         (ta <= 50 \/ jd <= today champion_world - 90)))
      f'.
Proof.
  split; [reflexivity|].
  apply (segment_labels_sound champion_world 0%nat [champion_row]). reflexivity.
Defined.

(** X14: the table [get_donor_segments] returns has at most four rows, and
    they come in descending order of count (most frequent segment first). *)
Theorem segment_counts_descending (w : World) (donors_df : ref) (f : Frame) :
  heap w !! donors_df = Some f ->
  exists counts,
    fst (get_donor_segments donors_df w) = Return counts /\
    (length counts <= 4)%nat /\
    (forall i j a b,
        counts !! i = Some a -> counts !! j = Some b -> (i < j)%nat ->
        (snd b <= snd a)%nat).
Proof.
  intros Hf. eexists. rewrite (get_donor_segments_run _ _ _ Hf).
  split; [done|]. rewrite labelled_segments. unfold value_counts.
  rewrite omap_id_Some. split.
  - rewrite length_sort_by, length_map.
    change 4%nat with (length [CHAMPIONS; EMERGING; ONE_TIME; AT_RISK]).
    apply submseteq_length, NoDup_submseteq; [apply NoDup_unique|].
    intros l Hl. apply (proj1 (elem_of_unique _ _)) in Hl.
    apply list_elem_of_fmap in Hl as (r & -> & _). apply row_label_cases.
  - intros i j a b Hi Hj Hij.
    apply Nat.leb_le.
    eapply (StronglySorted_lookup
              (fun a b : string * nat => (snd b <=? snd a)%nat = true));
      [|exact Hi|exact Hj|exact Hij].
    apply (sort_by_sorted (fun a b : string * nat => (snd b <=? snd a)%nat)).
    + intros x y Hxy. apply Nat.leb_le. apply Nat.leb_gt in Hxy. lia.
    + intros x y z Hxy Hyz. apply Nat.leb_le. apply Nat.leb_le in Hxy, Hyz. lia.
Qed.

Lemma segment_counts_descending_example :
  heap champion_world !! 0%nat = Some [champion_row] /\
  exists counts,
    fst (get_donor_segments 0%nat champion_world) = Return counts /\
    (length counts <= 4)%nat /\
    (forall i j a b,
        counts !! i = Some a -> counts !! j = Some b -> (i < j)%nat ->
        (snd b <= snd a)%nat).
Proof.
  split; [reflexivity|].
  apply (segment_counts_descending champion_world 0%nat [champion_row]).
  reflexivity.
Defined.

(** ** The script: KPIs and the campaign table *)

Lemma wrap64_add_l a b : wrap64 (wrap64 a + b) = wrap64 (a + b).
Proof.
  unfold wrap64. set (c := 2 ^ 63). set (m := 2 ^ 64).
  replace ((a + c) mod m - c + b + c) with ((a + c) mod m + b) by ring.
  rewrite Zplus_mod_idemp_l. f_equal. f_equal. ring.
Qed.

Lemma wrap64_add_r a b : wrap64 (a + wrap64 b) = wrap64 (a + b).
Proof. rewrite (Z.add_comm a), wrap64_add_l. f_equal. lia. Qed.

Lemma wrap64_idemp a : wrap64 (wrap64 a) = wrap64 a.
Proof.
  replace (wrap64 a) with (wrap64 a + 0) at 1 by lia.
  rewrite wrap64_add_l. f_equal. lia.
Qed.

Lemma series_sum_wrap col : series_sum col = wrap64 (zsum col).
Proof.
  unfold series_sum.
  assert (forall acc, fold_left int64_add col (wrap64 acc) = wrap64 (acc + zsum col))
    as H.
  { induction col as [|x col IH]; intros acc.
    - cbn [fold_left zsum fold_right]. f_equal. lia.
    - cbn [fold_left]. unfold int64_add at 2. rewrite wrap64_add_l, IH.
      f_equal. cbn [zsum fold_right]. fold (zsum col). lia. }
  change 0 with (wrap64 0) at 1. rewrite H. f_equal.
Qed.

Lemma zsum_cons x l : zsum (x :: l) = x + zsum l.
Proof. done. Qed.

Lemma zsum_perm l1 l2 : l1 ≡ₚ l2 -> zsum l1 = zsum l2.
Proof. induction 1; rewrite ?zsum_cons; lia. Qed.

Lemma zsum_wrap_map {A} (v : A -> Z) (l : list A) :
  wrap64 (zsum (map (fun x => wrap64 (v x)) l)) = wrap64 (zsum (map v l)).
Proof.
  induction l as [|x l IH]; [done|]. cbn [map]. rewrite !zsum_cons.
  rewrite wrap64_add_l, <- wrap64_add_r, IH, wrap64_add_r. done.
Qed.

Lemma zsum_map_add {A} (u v : A -> Z) (l : list A) :
  zsum (map (fun x => u x + v x) l) = zsum (map u l) + zsum (map v l).
Proof.
  induction l as [|x l IH]; [done|]. cbn [map]. rewrite !zsum_cons, IH. lia.
Qed.

Lemma zsum_indicator_0 (x : string) (a : Z) ks :
  x ∉ ks -> zsum (map (fun k => if bool_decide (x = k) then a else 0) ks) = 0.
Proof.
  induction ks as [|k ks IH]; [done|]. intros Hx.
  apply not_elem_of_cons in Hx as [Hxk Hx]. cbn [map].
  rewrite zsum_cons, bool_decide_eq_false_2, IH by done. done.
Qed.

Lemma zsum_indicator_1 (x : string) (a : Z) ks :
  NoDup ks -> x ∈ ks ->
  zsum (map (fun k => if bool_decide (x = k) then a else 0) ks) = a.
Proof.
  induction 1 as [|k ks Hk Hnd IH]; intros Hx.
  - by apply elem_of_nil in Hx.
  - cbn [map]. rewrite zsum_cons. destruct (decide (x = k)) as [->|Hxk].
    + rewrite bool_decide_eq_true_2, zsum_indicator_0 by done. lia.
    + rewrite bool_decide_eq_false_2 by done.
      apply elem_of_cons in Hx as [?|Hx]; [done|]. by rewrite IH.
Qed.

Lemma group_sum_cons e df c :
  zsum (map ev_amount
          (List.filter (fun e0 => bool_decide (ev_campaign e0 = c)) (e :: df)))
  = (if bool_decide (ev_campaign e = c) then ev_amount e else 0)
    + zsum (map ev_amount
              (List.filter (fun e0 => bool_decide (ev_campaign e0 = c)) df)).
Proof. cbn [List.filter]. by destruct (bool_decide (ev_campaign e = c)). Qed.

(** The groups of a key partition a sum. *)
Lemma zsum_groups (df : list DonationEvent) (ks : list string) :
  NoDup ks -> (forall e, e ∈ df -> ev_campaign e ∈ ks) ->
  zsum (map (fun c => zsum (map ev_amount
                              (List.filter (fun e => bool_decide (ev_campaign e = c)) df)))
            ks)
  = zsum (map ev_amount df).
Proof.
  intros Hnd. induction df as [|e df IH]; intros Hin.
  - cbn [List.filter map]. clear.
    induction ks as [|k ks IHk]; [done|]. cbn [map]. by rewrite zsum_cons, IHk.
  - cbn [map]. rewrite zsum_cons.
    rewrite <- IH by (intros x Hx; apply Hin; by right).
    rewrite (map_ext _ _ (group_sum_cons e df)), zsum_map_add.
    rewrite zsum_indicator_1; [done|done|]. apply Hin. by left.
Qed.

(** X15: the campaign table of line 125, built from any donation table:
    it has one row per campaign that occurs, no campaign twice, in
    descending order of amount, and its amounts add up (in int64
    arithmetic, as [sum] does) to the "Total Raised" figure of line 80. *)
Theorem campaign_table_partitions (df : list DonationEvent) :
  let table := sort_values_amount_desc (groupby_campaign_sum df) in
  NoDup (map fst table) /\
  (forall c, c ∈ map fst table <-> c ∈ map ev_campaign df) /\
  (forall i j a b,
      table !! i = Some a -> table !! j = Some b -> (i < j)%nat ->
      snd b <= snd a) /\
  series_sum (map snd table) = series_sum (map ev_amount df).
Proof.
  cbv zeta. unfold sort_values_amount_desc.
  set (ks := sort_by String.leb (remove_dups (map ev_campaign df))).
  assert (ks ≡ₚ remove_dups (map ev_campaign df)) as Hks by apply sort_by_perm.
  assert (map fst (groupby_campaign_sum df) = ks) as Hfst.
  { unfold groupby_campaign_sum. fold ks. rewrite map_map. apply map_id. }
  split; [|split; [|split]].
  - rewrite sort_by_perm, Hfst, Hks. apply NoDup_remove_dups.
  - intros c. rewrite sort_by_perm, Hfst, Hks. apply elem_of_remove_dups.
  - intros i j a b Hi Hj Hij. apply Z.leb_le.
    eapply (StronglySorted_lookup
              (fun a b : string * Z => (snd b <=? snd a) = true));
      [|exact Hi|exact Hj|exact Hij].
    apply (sort_by_sorted (fun a b : string * Z => snd b <=? snd a)).
    + intros x y Hxy. apply Z.leb_le. apply Z.leb_gt in Hxy. lia.
    + intros x y z Hxy Hyz. apply Z.leb_le. apply Z.leb_le in Hxy, Hyz. lia.
  - rewrite !series_sum_wrap.
    rewrite (zsum_perm _ (map snd (groupby_campaign_sum df)))
      by (by rewrite sort_by_perm).
    unfold groupby_campaign_sum. fold ks. rewrite map_map. cbn [snd].
    rewrite (map_ext _ _ (fun c => series_sum_wrap _)).
    rewrite (zsum_wrap_map
               (fun c => zsum (map ev_amount
                  (List.filter (fun e => bool_decide (ev_campaign e = c)) df)))).
    f_equal.
    rewrite (zsum_perm _ _ (fmap_Permutation _ _ _ Hks)).
    apply zsum_groups; [apply NoDup_remove_dups|].
    intros e He. apply elem_of_remove_dups, list_elem_of_fmap. by exists e.
Qed.

Lemma length_omap_le {A B} (g : A -> option B) (l : list A) :
  (length (omap g l) <= length l)%nat.
Proof.
  induction l as [|x l IH]; [done|]. cbn. destruct (g x); cbn; lia.
Qed.

(** X16: for any donation table, the "New Donors Reached" figure of line 85
    (the number of distinct donor ids) never exceeds the "New Donations"
    figure of line 81 (the number of rows), and it is 0 exactly when no
    donation carries a donor id. *)
Theorem donors_reached_bounded (live_donations : list DonationEvent) :
  (nunique (map ev_donor_id live_donations) <= length live_donations)%nat /\
  (nunique (map ev_donor_id live_donations) = 0%nat <->
   Forall (fun e => ev_donor_id e = None) live_donations).
Proof.
  unfold nunique. split.
  - transitivity (length (omap id (map ev_donor_id live_donations))).
    + apply submseteq_length, NoDup_submseteq; [apply NoDup_remove_dups|].
      intros x Hx. by apply (proj1 (elem_of_remove_dups _ _)).
    + etransitivity; [apply length_omap_le|]. by rewrite length_map.
  - split.
    + intros H0. apply Forall_forall. intros e He.
      destruct (ev_donor_id e) as [x|] eqn:Hx; [|done].
      assert (x ∈ remove_dups (omap id (map ev_donor_id live_donations))) as Hin.
      { apply elem_of_remove_dups, list_elem_of_omap. exists (Some x).
        split; [|done]. apply list_elem_of_fmap. by exists e. }
      destruct (remove_dups _); [by apply elem_of_nil in Hin|discriminate].
    + intros Hall.
      assert (omap id (map ev_donor_id live_donations) = []) as ->; [|done].
      induction Hall as [|e es He _ IH]; [done|]. cbn. by rewrite He.
Qed.

(** ** The churn list over a generated donor table *)

Lemma length_filter_map {A B} (p : B -> bool) (h : A -> B) (l : list A) :
  length (List.filter p (map h l)) = length (List.filter (fun x => p (h x)) l).
Proof.
  induction l as [|x l IH]; [done|]. cbn. destruct (p (h x)); cbn; by rewrite IH.
Qed.

Lemma generated_qualifying w n :
  length (List.filter (qualifies (today w)) (map (generated_row w n) (seq 0 n)))
  = length (List.filter (fun q => 180 <? bounded 30 730 q) (cells w n)).
Proof.
  unfold cells. rewrite !length_filter_map. f_equal.
  apply filter_ext. intros i.
  unfold qualifies. cbn [join_date generated_row lt_opt].
  destruct (Z.ltb_spec (today w - bounded 30 730 (tape w (cursor w + i)%nat))
                       (today w - 180)),
           (Z.ltb_spec 180 (bounded 30 730 (tape w (cursor w + i)%nat))); lia.
Qed.

Lemma churn_outcome_match top scores n :
  0 <= n -> top <> [] -> length scores = length top ->
  exists rows, churn_outcome top scores n = Return rows /\ length rows = length top.
Proof.
  intros Hn Hne Hlen. unfold churn_outcome.
  assert ((n <? 0) = false) as -> by lia.
  destruct top as [|d top]; [done|].
  rewrite Hlen, Nat.eqb_refl. eexists. split; [by destruct scores|].
  rewrite !length_map, length_zip_with. lia.
Qed.

Lemma churn_outcome_mismatch top scores n :
  0 <= n -> top <> [] -> length scores <> length top ->
  churn_outcome top scores n = Raise ValueError.
Proof.
  intros Hn Hne Hlen. unfold churn_outcome.
  assert ((n <? 0) = false) as -> by lia.
  destruct top as [|d top]; [done|].
  apply Nat.eqb_neq in Hlen. rewrite Hlen. by destruct scores.
Qed.

Lemma churn_outcome_no_candidate scores n :
  0 <= n -> scores <> [] ->
  exists rows,
    churn_outcome [] scores n = Return rows /\ length rows = length scores /\
    Forall (fun row => cr_name row = None /\ cr_total_donations row = None) rows.
Proof.
  intros Hn Hne. unfold churn_outcome.
  assert ((n <? 0) = false) as -> by lia.
  destruct scores as [|s scores]; [done|].
  eexists. split; [done|]. split; [by rewrite !length_map, length_imap|].
  apply Forall_forall. intros row Hrow.
  apply list_elem_of_fmap in Hrow as (r1 & -> & Hr1).
  apply list_elem_of_fmap in Hr1 as (r2 & -> & Hr2).
  apply list_elem_of_lookup in Hr2 as (i & Hi).
  rewrite list_lookup_imap in Hi.
  destruct ((s :: scores) !! i); [|done]. injection Hi as <-. done.
Qed.

(** X17: the churn list of a freshly generated donor table, as the script
    asks for it (500 donors, 5 at risk) and for any other sizes.  Let [old]
    be the number of generated donors who joined more than 180 days ago.
    With at least [m] of them the call returns [m] rows; with some but fewer
    than [m] it raises ValueError; with none it returns [m] rows that name
    no donor. *)
Theorem churn_over_generated_donors (w : World) (n m : Z) :
  0 <= n -> 0 < m ->
  let old := length (List.filter (fun q => 180 <? bounded 30 730 q)
                                 (cells w (Z.to_nat n))) in
  let run := fst ((donors <- generate_synthetic_donors n ;;
                   get_churn_risk_donors donors m) w) in
  ((Z.to_nat m <= old)%nat ->
   exists rows, run = Return rows /\ length rows = Z.to_nat m) /\
  ((0 < old < Z.to_nat m)%nat -> run = Raise ValueError) /\
  (old = 0%nat ->
   exists rows, run = Return rows /\ length rows = Z.to_nat m /\
                Forall (fun row => cr_name row = None /\
                                   cr_total_donations row = None) rows).
Proof.
  intros Hn Hm old run. set (N := Z.to_nat n) in *.
  set (F := map (generated_row w N) (seq 0 N)).
  set (w1 := with_new_frame F (advance (3 * N) w)).
  assert (run = churn_outcome (churn_top (today w) F m) (churn_scores w1 m) m) as ->.
  { unfold run. mstep ltac:(by apply generate_run). fold N F w1.
    change (today w) with (today w1).
    apply (get_churn_risk_donors_outcome _ F).
    exact (lookup_new_frame F (advance (3 * N) w)). }
  assert (length (List.filter (qualifies (today w)) F) = old) as Hold
    by apply generated_qualifying.
  assert (length (churn_scores w1 m) = Z.to_nat m) as Hsc
    by (unfold churn_scores; by rewrite !length_map, length_cells).
  assert (length (churn_top (today w) F m) = min (Z.to_nat m) old) as Htop.
  { unfold churn_top. assert ((0 <=? m) = true) as -> by lia.
    by rewrite length_take, length_sort_by, Hold. }
  split; [|split].
  - intros Hge.
    destruct (churn_outcome_match (churn_top (today w) F m) (churn_scores w1 m) m)
      as (rows & -> & Hlen); [lia| |lia|].
    + intros Hnil. rewrite Hnil in Htop. cbn [length] in Htop. lia.
    + exists rows. split; [done|]. lia.
  - intros Hlt. apply churn_outcome_mismatch; [lia| |lia].
    intros Hnil. rewrite Hnil in Htop. cbn [length] in Htop. lia.
  - intros H0.
    assert (churn_top (today w) F m = []) as ->.
    { apply length_zero_iff_nil. lia. }
    destruct (churn_outcome_no_candidate (churn_scores w1 m) m) as (rows & -> & Hlen & Hall);
      [lia| |].
    + intros Hnil. rewrite Hnil in Hsc. cbn [length] in Hsc. lia.
    + exists rows. split; [done|]. split; [lia|done].
Qed.

Lemma churn_over_generated_donors_example :
  0 <= 500 /\ 0 < 5 /\
  (5 <= length (List.filter (fun q => (180 <? bounded 30 730 q)%Z)
                            (cells demo_world (Z.to_nat 500))))%nat /\
  (exists rows,
     fst ((donors <- generate_synthetic_donors 500 ;;
           get_churn_risk_donors donors 5) demo_world) = Return rows /\
     length rows = Z.to_nat 5) /\
  (0 < length (List.filter (fun q => (180 <? bounded 30 730 q)%Z)
                           (cells demo_world (Z.to_nat 45))) < 5)%nat /\
  fst ((donors <- generate_synthetic_donors 45 ;;
        get_churn_risk_donors donors 5) demo_world) = Raise ValueError.
Proof.
  assert (5 <= length (List.filter (fun q => (180 <? bounded 30 730 q)%Z)
                                   (cells demo_world (Z.to_nat 500))))%nat as Hdemo.
  { apply Nat.leb_le. vm_compute. reflexivity. }
  assert (0 < length (List.filter (fun q => (180 <? bounded 30 730 q)%Z)
                                  (cells demo_world (Z.to_nat 45))) < 5)%nat as Hfew.
  { split; apply Nat.ltb_lt; vm_compute; reflexivity. }
  split; [lia|]. split; [lia|]. split; [exact Hdemo|]. split.
  - exact (proj1 (churn_over_generated_donors demo_world 500 5 ltac:(lia) ltac:(lia))
                 Hdemo).
  - split; [exact Hfew|].
    exact (proj1 (proj2 (churn_over_generated_donors demo_world 45 5
                           ltac:(lia) ltac:(lia))) Hfew).
Defined.
